(** * Thread-local hazard-pointer structures of folly

    A shallow embedding of [folly/synchronization/HazptrThrLocal.h]:
    the thread cache of hazard-pointer records ([hazptr_tc]) and the
    per-thread list of retired objects ([hazptr_priv]), followed by the
    properties established about them. *)

From stdpp Require Import base list gmap.
From Stdlib Require Import ZArith Lia.

Local Open Scope Z_scope.

(** ** Outcomes of running a member function *)

(** The two kinds of glog assertion the header uses. *)
Inductive check_kind := DcheckFailed | CheckFailed.

(** What a call can end in: a value, a glog assertion that failed (the
    process aborts), behaviour the C++ standard leaves undefined (an index
    past the end of [entry_], a null [hprec_] dereferenced, signed
    overflow), or a [while (true)] loop that used up the iterations the
    model allows it. *)
Inductive result (A : Type) : Type :=
| Val (a : A)
| Abort (k : check_kind)
| Undefined
| Spinning.
Arguments Val {A} a.
Arguments Abort {A} k.
Arguments Undefined {A}.
Arguments Spinning {A}.

(** A member function over the state [W]: the state is kept when the call
    fails, so that what happened before the failure stays visible. *)
Definition M (W A : Type) : Type := W -> result A * W.

Definition ret {W A} (a : A) : M W A := fun w => (Val a, w).

Definition bind {W A B} (m : M W A) (k : A -> M W B) : M W B :=
  fun w =>
    match m w with
    | (Val a, w') => k a w'
    | (Abort c, w') => (Abort c, w')
    | (Undefined, w') => (Undefined, w')
    | (Spinning, w') => (Spinning, w')
    end.

Definition gets {W A} (f : W -> A) : M W A := fun w => (Val (f w), w).
Definition modify {W} (f : W -> W) : M W unit := fun w => (Val tt, f w).
Definition fail_with {W A} (r : result A) : M W A := fun w => (r, w).

Declare Scope hazptr_scope.
Delimit Scope hazptr_scope with hazptr.
Notation "x <- m ;; k" := (bind m (fun x => k))
  (at level 100, m at next level, right associativity) : hazptr_scope.
Notation "m ;;; k" := (bind m (fun _ => k))
  (at level 100, right associativity) : hazptr_scope.
Local Open Scope hazptr_scope.

(** [for (uint8_t i = 0; i < n; ++i) body(i)], for a bound [n] the body
    leaves alone: [iters] is the number of iterations left and [i] the
    current index. *)
Fixpoint for_loop {W} (iters : nat) (i : Z) (body : Z -> M W unit) : M W unit :=
  match iters with
  | O => ret tt
  | S iters' => body i ;;; for_loop iters' (i + 1) body
  end.

(** Pointers are addresses; [nullptr] is address 0. *)
Definition ptr : Type := Z.
Definition nullptr : ptr := 0.

(** Unsigned wrap-around of [uint8_t] and [uint16_t]. *)
Definition u8 (z : Z) : Z := z mod 256.
Definition u16 (z : Z) : Z := z mod 65536.

(** ** hazptr_tc: the thread cache of hazptr_rec-s *)

Module GuardCache.

(** [hazptr_tc]; a [hazptr_tc_entry] is its one field [hprec_]. The time
    point [first_fill_time_] is a count of nanoseconds. *)
Record hazptr_tc : Type := Build_hazptr_tc {
  entry_ : list ptr;
  count_ : Z;
  local_ : bool;
  num_fills_ : Z;
  first_fill_time_ : Z
}.

(** The calls that reach the default domain. *)
Inductive event : Type :=
| HprecAcquire (hprec : ptr)
| HprecRelease (hprec : ptr).

(** The cache together with what it talks to: the steady clock, the
    records the domain hands out ([hprec_pool], the k-th acquire returns
    [hprec_pool k]) and the log of the calls the domain received. *)
Record world : Type := Build_world {
  tc : hazptr_tc;
  steady_clock : Z;
  hprec_pool : nat -> ptr;
  hprec_taken : nat;
  domain_log : list event
}.

Definition kCapacity : Z := 6.
Definition capacity : Z := kCapacity.

Definition with_tc (f : hazptr_tc -> hazptr_tc) (w : world) : world :=
  Build_world (f (tc w)) (steady_clock w) (hprec_pool w) (hprec_taken w)
    (domain_log w).

Definition with_entry (i : Z) (hprec : ptr) (c : hazptr_tc) : hazptr_tc :=
  Build_hazptr_tc (<[Z.to_nat i := hprec]> (entry_ c)) (count_ c) (local_ c)
    (num_fills_ c) (first_fill_time_ c).

Definition with_count (val : Z) (c : hazptr_tc) : hazptr_tc :=
  Build_hazptr_tc (entry_ c) val (local_ c) (num_fills_ c)
    (first_fill_time_ c).

Definition with_num_fills (val : Z) (c : hazptr_tc) : hazptr_tc :=
  Build_hazptr_tc (entry_ c) (count_ c) (local_ c) val (first_fill_time_ c).

Definition with_first_fill_time (t : Z) (c : hazptr_tc) : hazptr_tc :=
  Build_hazptr_tc (entry_ c) (count_ c) (local_ c) (num_fills_ c) t.

Definition log_event (e : event) (w : world) : world :=
  Build_world (tc w) (steady_clock w) (hprec_pool w) (hprec_taken w)
    (domain_log w ++ [e]).

(** The environment moves the steady clock between calls. *)
Definition at_time (t : Z) (w : world) : world :=
  Build_world (tc w) t (hprec_pool w) (hprec_taken w) (domain_log w).

(** Modelled from the spec: [hazptr_rec::release()] of HazptrRec.h, which
    is not part of the sources at hand; release_record returns a record to
    the domain's free pool. *)
Definition hprec_release (hprec : ptr) : M world unit :=
  modify (log_event (HprecRelease hprec)).

(** Modelled from the spec: [hazptr_domain::hprec_acquire()] of
    HazptrDomain.h, which is not part of the sources at hand;
    acquire_record returns a free guard record. *)
Definition hprec_acquire : M world ptr :=
  fun w =>
    let hprec := hprec_pool w (hprec_taken w) in
    (Val hprec,
     Build_world (tc w) (steady_clock w) (hprec_pool w) (S (hprec_taken w))
       (domain_log w ++ [HprecAcquire hprec])).

(** [std::chrono::steady_clock::now()], in nanoseconds. *)
Definition now : M world Z := gets steady_clock.

Section Build.

(** glog's [DCHECK] family is compiled out when NDEBUG is defined; the
    build decides. [CHECK] is always compiled in. *)
Variable dcheck_enabled : bool.

Definition DCHECK {W} (cond : bool) : M W unit :=
  if dcheck_enabled && negb cond then fail_with (Abort DcheckFailed) else ret tt.

Definition CHECK {W} (cond : bool) : M W unit :=
  if cond then ret tt else fail_with (Abort CheckFailed).

(** [entry_[i]] read and written; an index outside the array is undefined
    behaviour. *)
Definition entry_get (i : Z) : M world ptr :=
  e <- gets (fun w => entry_ (tc w) !! Z.to_nat i) ;;
  match e with
  | Some hprec => ret hprec
  | None => fail_with Undefined
  end.

Definition entry_fill (i : Z) (hprec : ptr) : M world unit :=
  len <- gets (fun w => length (entry_ (tc w))) ;;
  if (Z.to_nat i <? len)%nat then modify (with_tc (with_entry i hprec))
  else fail_with Undefined.

(** [hazptr_tc_entry::evict]: [hprec_->release()]. *)
Definition entry_evict (i : Z) : M world unit :=
  hprec <- entry_get i ;;
  if hprec =? nullptr then fail_with Undefined else hprec_release hprec.

Definition count : M world Z := gets (fun w => count_ (tc w)).
Definition set_count (val : Z) : M world unit := modify (with_tc (with_count val)).

(** [~hazptr_tc] *)
Definition destructor : M world unit :=
  n <- count ;;
  for_loop (Z.to_nat n) 0 entry_evict.

(** [try_get] *)
Definition try_get : M world ptr :=
  c <- count ;;
  if 0 <? c then
    set_count (u8 (c - 1)) ;;;
    c' <- count ;;
    hprec <- entry_get c' ;;
    ret hprec
  else ret nullptr.

(** [try_put] *)
Definition try_put (hprec : ptr) : M world bool :=
  c <- count ;;
  if c <? capacity then
    set_count (u8 (c + 1)) ;;;
    entry_fill c hprec ;;;
    ret true
  else ret false.

Definition max_fills : Z := 10.
(** [nanoseconds(period).count()] for [period = milliseconds(1)]. *)
Definition period_ns : Z := 1000000.

(** [fill_should_not_be_called_frequently] *)
Definition fill_should_not_be_called_frequently : M world unit :=
  n <- gets (fun w => num_fills_ (tc w)) ;;
  modify (with_tc (with_num_fills (u16 (n + 1)))) ;;;
  if n =? 0 then
    t <- now ;;
    modify (with_tc (with_first_fill_time t))
  else
    n' <- gets (fun w => num_fills_ (tc w)) ;;
    if max_fills <? n' then
      t <- now ;;
      first <- gets (fun w => first_fill_time_ (tc w)) ;;
      let dur := t - first in
      CHECK (period_ns <? dur) ;;;
      modify (with_tc (with_num_fills 1)) ;;;
      modify (with_tc (with_first_fill_time t))
    else ret tt.

(** [fill] *)
Definition fill (num : Z) : M world unit :=
  c <- count ;;
  DCHECK (c + num <=? capacity) ;;;
  fill_should_not_be_called_frequently ;;;
  for_loop (Z.to_nat num) 0 (fun _ =>
    hprec <- hprec_acquire ;;
    c <- count ;;
    set_count (u8 (c + 1)) ;;;
    entry_fill c hprec).

(** [evict] *)
Definition evict (num : Z) : M world unit :=
  c <- count ;;
  DCHECK (num <=? c) ;;;
  for_loop (Z.to_nat num) 0 (fun _ =>
    c <- count ;;
    set_count (u8 (c - 1)) ;;;
    c' <- count ;;
    entry_evict c').

End Build.

(** A cache as its constructor leaves it: nothing cached, no refill seen;
    the slots hold whatever [slots] says. *)
Definition fresh_tc (slots : list ptr) : hazptr_tc :=
  Build_hazptr_tc slots 0 false 0 0.

Definition fresh_world (slots : list ptr) (pool : nat -> ptr) (t : Z) : world :=
  Build_world (fresh_tc slots) t pool 0 [].

(** What the C++ types of the fields give: [entry_] has its six slots,
    [count_] is a [uint8_t]. *)
Definition typed_tc (c : hazptr_tc) : Prop :=
  length (entry_ c) = 6%nat /\ 0 <= count_ c < 256.

(** The data-model invariant of the cache: on top of the types, the count
    is within the capacity and every occupied slot holds a record. *)
Definition wf_tc (c : hazptr_tc) : Prop :=
  length (entry_ c) = 6%nat /\
  0 <= count_ c <= capacity /\
  forall i hprec, (i < Z.to_nat (count_ c))%nat ->
    entry_ c !! i = Some hprec -> hprec <> nullptr.

(** The invariant as a check that runs. *)
Definition wf_tcb (c : hazptr_tc) : bool :=
  (length (entry_ c) =? 6)%nat && (0 <=? count_ c) && (count_ c <=? capacity) &&
  forallb (fun hprec => negb (hprec =? nullptr))
    (take (Z.to_nat (count_ c)) (entry_ c)).

(** A cache holding three records, and the same cache once full. *)
Definition three_cached : world :=
  Build_world (Build_hazptr_tc [11; 12; 13; 0; 0; 0] 3 false 1 0) 0
    (fun k => 100 + Z.of_nat k) 3 [].

Definition six_cached : world :=
  Build_world (Build_hazptr_tc [11; 12; 13; 14; 15; 16] 6 false 1 0) 0
    (fun k => 100 + Z.of_nat k) 6 [].

Definition none_cached : world :=
  Build_world (Build_hazptr_tc [0; 0; 0; 0; 0; 0] 0 false 0 0) 0
    (fun k => 100 + Z.of_nat k) 0 [].

(** A refill of one record at time [t], the record taken out of the
    cache right after, and a series of them. *)
Definition refill_at (dcheck_enabled : bool) (t : Z) : M world unit :=
  fun w => (fill dcheck_enabled 1 ;;; _ <- try_get ;; ret tt) (at_time t w).

Fixpoint refills_at (dcheck_enabled : bool) (ts : list Z) : M world unit :=
  match ts with
  | [] => ret tt
  | t :: ts' => refill_at dcheck_enabled t ;;; refills_at dcheck_enabled ts'
  end.

(** An idle cache: nothing cached, [n] refills counted since the window
    that started at [f]. *)
Definition idle (n f : Z) (w : world) : Prop :=
  length (entry_ (tc w)) = 6%nat /\ count_ (tc w) = 0 /\
  num_fills_ (tc w) = n /\ first_fill_time_ (tc w) = f.

(** Twelve refill times: one refill, a pause of 2 ms, then eleven
    refills 0.05 ms apart. *)
Definition burst_after_pause : list Z :=
  [0; 2000000; 2050000; 2100000; 2150000; 2200000; 2250000; 2300000;
   2350000; 2400000; 2450000; 2500000].

(** [operator[]] together with the [get] or the [fill] that its callers
    apply to the entry it returns. *)
Definition subscript_get (dcheck_enabled : bool) (i : Z) : M world ptr :=
  DCHECK dcheck_enabled (i <=? capacity) ;;; entry_get i.

Definition subscript_fill (dcheck_enabled : bool) (i : Z) (hprec : ptr)
    : M world unit :=
  DCHECK dcheck_enabled (i <=? capacity) ;;; entry_fill i hprec.

(** One round of the loop of [fill], and one of the loop of [evict]. *)
Definition fill_round (_ : Z) : M world unit :=
  hprec <- hprec_acquire ;;
  c <- count ;;
  set_count (u8 (c + 1)) ;;;
  entry_fill c hprec.

Definition evict_round (_ : Z) : M world unit :=
  c <- count ;;
  set_count (u8 (c - 1)) ;;;
  c' <- count ;;
  entry_evict c'.

(** [try_put] of one record after the other, and [try_get] [n] times
    over, collecting what comes out. *)
Fixpoint put_all (hs : list ptr) : M world unit :=
  match hs with
  | [] => ret tt
  | h :: hs' => _ <- try_put h ;; put_all hs'
  end.

Fixpoint get_n (n : nat) : M world (list ptr) :=
  match n with
  | O => ret []
  | S n' => h <- try_get ;; hs <- get_n n' ;; ret (h :: hs)
  end.

(** The operations a user of the cache issues, a refill coming with the
    time at which it happens, and a series of them run in a build with
    or without [DCHECK]. *)
Inductive tc_op : Type :=
| OpTryGet
| OpTryPut (hprec : ptr)
| OpFill (t : Z) (num : Z)
| OpEvict (num : Z).

Definition run_op (dcheck_enabled : bool) (o : tc_op) : M world unit :=
  match o with
  | OpTryGet => _ <- try_get ;; ret tt
  | OpTryPut hprec => _ <- try_put hprec ;; ret tt
  | OpFill t num => fun w => fill dcheck_enabled num (at_time t w)
  | OpEvict num => evict dcheck_enabled num
  end.

Fixpoint run_ops (dcheck_enabled : bool) (os : list tc_op) : M world unit :=
  match os with
  | [] => ret tt
  | o :: os' => run_op dcheck_enabled o ;;; run_ops dcheck_enabled os'
  end.

(** Arguments a caller can pass: a record that is not null, a [uint8_t]
    number. *)
Definition op_ok (o : tc_op) : Prop :=
  match o with
  | OpTryGet => True
  | OpTryPut hprec => hprec <> nullptr
  | OpFill _ num => 0 <= num < 256
  | OpEvict num => 0 <= num < 256
  end.

(** The cache in order, its refill counter within its limit, and a
    domain that hands out records that are not null. *)
Definition cache_inv (w : world) : Prop :=
  wf_tc (tc w) /\ 0 <= num_fills_ (tc w) <= max_fills /\
  forall k, hprec_pool w k <> nullptr.

(** The records the domain hands out from its [k]-th acquire on. *)
Definition handed_out (w : world) (k n : nat) : list ptr :=
  map (hprec_pool w) (seq k n).

End GuardCache.

(** ** hazptr_priv: the per-thread list of retired objects *)

Module RetiredBuffer.

(** [hazptr_priv]: the two atomics hold plain pointers, the list is only
    ever touched by the thread that owns it. *)
Record hazptr_priv : Type := Build_hazptr_priv {
  head_ : ptr;
  tail_ : ptr;
  rcount_ : Z;
  in_dtor_ : bool
}.

(** Modelled from the spec: [hazptr_obj_list] of HazptrObj.h, which is not
    part of the sources at hand; the batch descriptor (head node, tail
    node, count) handed to the domain. *)
Record hazptr_obj_list : Type := Build_hazptr_obj_list {
  l_head : ptr;
  l_tail : ptr;
  l_count : Z
}.

(** Modelled from the spec: the one-argument constructor of
    [hazptr_obj_list], a single-node batch. *)
Definition single_obj_list (obj : ptr) : hazptr_obj_list :=
  Build_hazptr_obj_list obj obj 1.

(** A call of [push], with the pushes that come back into this thread's
    [hazptr_priv] from inside the domain while it takes the batch this
    call hands over (objects reclaimed there retire further objects from
    their destructors). A call that hands nothing to the domain gives
    them no occasion to run. *)
#[local] Unset Elimination Schemes.
Inductive retire : Type :=
| Retire (obj : ptr) (reentrant : list retire).
#[local] Set Elimination Schemes.

(** The thread's [hazptr_priv], the [next_] link of every [hazptr_obj]
    that had one stored, the batches the domain received, each with the
    nodes linked from its head to its tail at that moment, and the
    objects [push] was called with so far. *)
Record world : Type := Build_world {
  priv : hazptr_priv;
  next_ : gmap Z Z;
  domain_log : list (hazptr_obj_list * list ptr);
  retire_calls : list ptr
}.

Definition kThreshold : Z := 20.
Definition INT_MAX : Z := 2147483647.

Definition with_priv (f : hazptr_priv -> hazptr_priv) (w : world) : world :=
  Build_world (f (priv w)) (next_ w) (domain_log w) (retire_calls w).

Definition with_head (p : ptr) (s : hazptr_priv) : hazptr_priv :=
  Build_hazptr_priv p (tail_ s) (rcount_ s) (in_dtor_ s).

Definition with_tail (p : ptr) (s : hazptr_priv) : hazptr_priv :=
  Build_hazptr_priv (head_ s) p (rcount_ s) (in_dtor_ s).

Definition with_rcount (n : Z) (s : hazptr_priv) : hazptr_priv :=
  Build_hazptr_priv (head_ s) (tail_ s) n (in_dtor_ s).

Definition with_in_dtor (b : bool) (s : hazptr_priv) : hazptr_priv :=
  Build_hazptr_priv (head_ s) (tail_ s) (rcount_ s) b.

Definition with_next (obj nxt : ptr) (w : world) : world :=
  Build_world (priv w) (<[obj := nxt]> (next_ w)) (domain_log w)
    (retire_calls w).

Definition with_batch (b : hazptr_obj_list * list ptr) (w : world) : world :=
  Build_world (priv w) (next_ w) (domain_log w ++ [b]) (retire_calls w).

Definition with_call (obj : ptr) (w : world) : world :=
  Build_world (priv w) (next_ w) (domain_log w) (retire_calls w ++ [obj]).

(** The nodes from [p] along the [next_] links up to and including [t]. *)
Fixpoint walk (fuel : nat) (next : gmap Z Z) (p t : ptr) : list ptr :=
  match fuel with
  | O => []
  | S fuel' =>
      if p =? nullptr then []
      else p :: (if p =? t then []
                 else match next !! p with
                      | Some q => walk fuel' next q t
                      | None => []
                      end)
  end.

(** [hazptr_obj::set_next], through a pointer that has to be non-null. *)
Definition set_next (obj nxt : ptr) : M world unit :=
  if obj =? nullptr then fail_with Undefined else modify (with_next obj nxt).

(** [hazptr_priv()] *)
Definition constructor : hazptr_priv := Build_hazptr_priv nullptr nullptr 0 false.

Definition head : M world ptr := gets (fun w => head_ (priv w)).
Definition tail : M world ptr := gets (fun w => tail_ (priv w)).
Definition set_head (obj : ptr) : M world unit := modify (with_priv (with_head obj)).

(** [compare_exchange_weak] on [head_] and [tail_]. It is taken to fail
    only when the value differs: a spurious failure sends [push_in_priv_list]
    round its loop once more in the same state. *)
Definition cas_head (expected obj : ptr) : M world bool :=
  h <- head ;;
  if h =? expected then modify (with_priv (with_head obj)) ;;; ret true
  else ret false.

Definition cas_tail (expected obj : ptr) : M world bool :=
  t <- tail ;;
  if t =? expected then modify (with_priv (with_tail obj)) ;;; ret true
  else ret false.

Definition exchange_head : M world ptr :=
  h <- head ;; modify (with_priv (with_head nullptr)) ;;; ret h.

Definition exchange_tail : M world ptr :=
  t <- tail ;; modify (with_priv (with_tail nullptr)) ;;; ret t.

(** [empty] *)
Definition empty : M world bool := h <- head ;; ret (h =? nullptr).

(** [push_in_non_empty_list] *)
Definition push_in_non_empty_list (obj : ptr) : M world bool :=
  h <- head ;;
  if negb (h =? nullptr) then
    set_next obj h ;;;
    b <- cas_head h obj ;;
    if b then ret true else ret false
  else ret false.

(** [push_in_empty_list] *)
Definition push_in_empty_list (obj : ptr) : M world bool :=
  let t := nullptr in
  set_next obj nullptr ;;;
  b <- cas_tail t obj ;;
  if b then set_head obj ;;; ret true else ret false.

(** [++rcount_] on an [int]: overflow is undefined. *)
Definition pre_increment_rcount : M world Z :=
  c <- gets (fun w => rcount_ (priv w)) ;;
  if c =? INT_MAX then fail_with Undefined
  else modify (with_priv (with_rcount (c + 1))) ;;; ret (c + 1).

Section Build.

(** Whether glog's [DCHECK] is compiled in, and how many times the
    [while (true)] of [push_in_priv_list] may go round. *)
Variable dcheck_enabled : bool.
Variable spin_limit : nat.

Definition DCHECK (cond : bool) : M world unit :=
  if dcheck_enabled && negb cond then fail_with (Abort DcheckFailed) else ret tt.

(** Modelled from the spec: [hazptr_domain_push_retired] of HazptrDomain.h,
    which is not part of the sources at hand; bulk_retire ingests a batch
    of already-linked retired nodes. [reenter] is what comes back into this
    thread's [hazptr_priv] while the domain is at it. *)
Definition hazptr_domain_push_retired (l : hazptr_obj_list)
    (reenter : M world unit) : M world unit :=
  nodes <- gets (fun w =>
    walk (S (size (next_ w))) (next_ w) (l_head l) (l_tail l)) ;;
  modify (with_batch (l, nodes)) ;;;
  reenter.

(** [collect]: the two reference parameters come back as the result. *)
Definition collect (colHead colTail : ptr) : M world (ptr * ptr) :=
  h <- exchange_head ;;
  if negb (h =? nullptr) then
    t <- exchange_tail ;;
    DCHECK (negb (t =? nullptr)) ;;;
    colHead' <- (if negb (colTail =? nullptr)
                 then set_next colTail h ;;; ret colHead
                 else ret h) ;;
    ret (colHead', t)
  else ret (colHead, colTail).

(** [push_all_to_domain] *)
Definition push_all_to_domain (reenter : M world unit) : M world unit :=
  ht <- collect nullptr nullptr ;;
  let h := fst ht in
  let t := snd ht in
  if negb (h =? nullptr) then
    DCHECK (negb (t =? nullptr)) ;;;
    rc <- gets (fun w => rcount_ (priv w)) ;;
    let l := Build_hazptr_obj_list h t rc in
    hazptr_domain_push_retired l reenter ;;;
    modify (with_priv (with_rcount 0))
  else ret tt.

(** The [while (true)] of [push_in_priv_list]. *)
Fixpoint push_loop (spin : nat) (obj : ptr) : M world unit :=
  match spin with
  | O => fail_with Spinning
  | S spin' =>
      t <- tail ;;
      if negb (t =? nullptr) then
        b <- push_in_non_empty_list obj ;;
        if b then ret tt else push_loop spin' obj
      else
        b <- push_in_empty_list obj ;;
        if b then ret tt else push_loop spin' obj
  end.

(** [push_in_priv_list] *)
Definition push_in_priv_list (obj : ptr) (reenter : M world unit) : M world unit :=
  push_loop spin_limit obj ;;;
  c <- pre_increment_rcount ;;
  if kThreshold <=? c then push_all_to_domain reenter else ret tt.

(** The body of [push], for a call into which [reenter] comes back. *)
Definition push_body (obj : ptr) (reenter : M world unit) : M world unit :=
  modify (with_call obj) ;;;
  d <- gets (fun w => in_dtor_ (priv w)) ;;
  if negb d then push_in_priv_list obj reenter
  else hazptr_domain_push_retired (single_obj_list obj) reenter.

(** [push] *)
Fixpoint push (c : retire) : M world unit :=
  match c with
  | Retire obj reentrant =>
      push_body obj
        ((fix run (cs : list retire) : M world unit :=
            match cs with
            | [] => ret tt
            | c' :: cs' => push c' ;;; run cs'
            end) reentrant)
  end.

(** One call of [push] after the other. *)
Fixpoint run (cs : list retire) : M world unit :=
  match cs with
  | [] => ret tt
  | c :: cs' => push c ;;; run cs'
  end.

(** [~hazptr_priv], with the pushes that come back into it from the
    domain during its flush. *)
Definition destructor (reentrant : list retire) : M world unit :=
  modify (with_priv (with_in_dtor true)) ;;;
  e <- empty ;;
  if negb e then push_all_to_domain (run reentrant) else ret tt.

End Build.

(** A call of [push] into which nothing comes back. *)
Definition plain (obj : ptr) : retire := Retire obj [].

(** The objects a script of calls names, in the order of the calls. *)
Fixpoint objs_of (c : retire) : list ptr :=
  match c with
  | Retire obj reentrant =>
      obj :: (fix go (cs : list retire) : list ptr :=
                match cs with
                | [] => []
                | c' :: cs' => objs_of c' ++ go cs'
                end) reentrant
  end.

Fixpoint objs_of_all (cs : list retire) : list ptr :=
  match cs with
  | [] => []
  | c :: cs' => objs_of c ++ objs_of_all cs'
  end.

(** Induction over a call and the calls nested in it. *)
Section RetireInd.
Variable P : retire -> Prop.
Hypothesis step_case :
  forall obj reentrant, Forall P reentrant -> P (Retire obj reentrant).

Fixpoint retire_ind (c : retire) : P c :=
  match c with
  | Retire obj reentrant =>
      step_case obj reentrant
        ((fix all (cs : list retire) : Forall P cs :=
            match cs with
            | [] => ListDef.Forall_nil P
            | c' :: cs' => ListDef.Forall_cons P c' cs' (retire_ind c') (all cs')
            end) reentrant)
  end.
End RetireInd.

(** [l] is the list of nodes reachable from [p] through [next_] links,
    ending at a null link. *)
Inductive lseg (next : gmap Z Z) : ptr -> list ptr -> Prop :=
| lseg_nil : lseg next nullptr []
| lseg_cons p q l :
    p <> nullptr -> next !! p = Some q -> lseg next q l ->
    lseg next p (p :: l).

(** The buffer holds exactly the nodes [l]: they are the list from
    [head_], [tail_] is the last of them and none occurs twice. *)
Definition buffered (w : world) (l : list ptr) : Prop :=
  lseg (next_ w) (head_ (priv w)) l /\
  tail_ (priv w) = default nullptr (last l) /\
  NoDup l.

(** The nodes of a run of batches. *)
Definition flushed (bs : list (hazptr_obj_list * list ptr)) : list ptr :=
  concat (map snd bs).

(** A buffer right after its constructor ran, over the links [next]. *)
Definition fresh_world (next : gmap Z Z) : world :=
  Build_world constructor next [] [].

(** The state once [obj] is linked in front of the list, once the
    count went up by one, and once the list was detached and handed to
    the domain as a batch of the nodes [l]. *)
Definition linked (obj : ptr) (w : world) : world :=
  Build_world
    (Build_hazptr_priv obj
       (if tail_ (priv w) =? nullptr then obj else tail_ (priv w))
       (rcount_ (priv w)) (in_dtor_ (priv w)))
    (<[obj := head_ (priv w)]> (next_ w)) (domain_log w) (retire_calls w).

Definition counted (w : world) : world :=
  with_priv (with_rcount (rcount_ (priv w) + 1)) w.

Definition detached (w : world) : world :=
  Build_world
    (Build_hazptr_priv nullptr nullptr (rcount_ (priv w)) (in_dtor_ (priv w)))
    (next_ w) (domain_log w) (retire_calls w).

Definition handed_over (l : list ptr) (w : world) : world :=
  with_batch
    (Build_hazptr_obj_list (head_ (priv w)) (tail_ (priv w)) (rcount_ (priv w)),
     l)
    (detached w).

(** [l] is the run of nodes from [p] along the [next_] links up to the
    node [t], both included: what a batch from head [p] to tail [t]
    holds. *)
Inductive chain (next : gmap Z Z) : ptr -> ptr -> list ptr -> Prop :=
| chain_last p : p <> nullptr -> chain next p p [p]
| chain_step p q t l :
    p <> nullptr -> next !! p = Some q -> chain next q t l ->
    chain next p t (p :: l).

(** A batch whose descriptor says what its nodes are: the count is
    their number, the head the first and the tail the last of them. *)
Definition batch_ok (n : nat) (b : hazptr_obj_list * list ptr) : Prop :=
  length (snd b) = n /\ l_count (fst b) = Z.of_nat n /\
  l_head (fst b) = hd nullptr (snd b) /\
  l_tail (fst b) = default nullptr (last (snd b)).

(** Nineteen plain pushes, then a twentieth into whose flush two more
    pushes come back. *)
Definition nested_script : list retire :=
  map plain (map Z.of_nat (seq 1 19)) ++ [Retire 20 [plain 21; plain 22]].

(** The state after pushes of [objs] that all went past the list,
    each straight to the domain as a batch of one. *)
Definition bypassed (objs : list ptr) (w : world) : world :=
  Build_world (priv w) (next_ w)
    (domain_log w ++ map (fun o => (single_obj_list o, [o])) objs)
    (retire_calls w ++ objs).

(** [m] is a run of pushes of [objs] that all went past the list. *)
Definition bypasses (m : M world unit) (objs : list ptr) : Prop :=
  forall w, in_dtor_ (priv w) = true -> Forall (fun o => o <> nullptr) objs ->
    m w = (Val tt, bypassed objs w).

(** What a script over the objects [objs] may assume of the state it
    starts in, with [l] the nodes buffered there: the buffer is in
    order and not torn down, the objects are non-null, pairwise
    distinct and not buffered already, and the count has room. *)
Definition ready (w : world) (l objs : list ptr) : Prop :=
  buffered w l /\ in_dtor_ (priv w) = false /\
  NoDup (objs ++ l) /\ Forall (fun o => o <> nullptr) objs /\
  0 <= rcount_ (priv w) /\
  rcount_ (priv w) + Z.of_nat (length objs) <= INT_MAX.

(** What it leaves behind in [w']: a buffer in order holding [l'], with
    [pushed] the objects [push] was called with and [batches] what the
    domain received meanwhile; every node pushed or buffered before is
    either buffered now or in one of the batches, once. *)
Definition settled (w : world) (l objs : list ptr) (w' : world)
    (l' pushed : list ptr) (batches : list (hazptr_obj_list * list ptr)) : Prop :=
  buffered w' l' /\ in_dtor_ (priv w') = false /\
  0 <= rcount_ (priv w') <= rcount_ (priv w) + Z.of_nat (length objs) /\
  retire_calls w' = retire_calls w ++ pushed /\
  domain_log w' = domain_log w ++ batches /\
  sublist pushed objs /\
  l' ++ flushed batches ≡ₚ pushed ++ l.

(** The object a call names. *)
Definition obj_of (c : retire) : ptr :=
  match c with Retire obj _ => obj end.

(** Which pushes a script comes to, read off the script alone: the
    objects [push] gets called with, in order, and the count after them,
    when the calls start at a count of [r]. A call on a torn-down buffer
    goes to the domain, so the calls nested in it happen and the count
    stays. Otherwise a call that leaves the count below the threshold
    makes no call to the domain and the calls nested in it do not
    happen; one that reaches the threshold flushes, the calls nested in
    it happen from the count it reached, and the count is 0 after it. *)
Section Called.
Variable torn : bool.

Fixpoint called (c : retire) (r : Z) {struct c} : list ptr * Z :=
  match c with
  | Retire obj reentrant =>
      let inner :=
        (fix go (cs : list retire) (r : Z) {struct cs} : list ptr * Z :=
           match cs with
           | [] => ([], r)
           | c' :: cs' =>
               (fst (called c' r) ++ fst (go cs' (snd (called c' r))),
                snd (go cs' (snd (called c' r))))
           end) in
      if torn then (obj :: fst (inner reentrant r), r)
      else if r + 1 <? kThreshold then ([obj], r + 1)
      else (obj :: fst (inner reentrant (r + 1)), 0)
  end.

Fixpoint called_all (cs : list retire) (r : Z) {struct cs} : list ptr * Z :=
  match cs with
  | [] => ([], r)
  | c :: cs' =>
      (fst (called c r) ++ fst (called_all cs' (snd (called c r))),
       snd (called_all cs' (snd (called c r))))
  end.

End Called.

(** [m], run on a buffer that is not torn down, goes through the pushes
    that [calls] names for the count it starts at, and ends with a
    buffer in order and the count [calls] gives. *)
Definition safe (m : M world unit) (objs : list ptr)
    (calls : Z -> list ptr * Z) : Prop :=
  forall w l, ready w l objs ->
    exists w' l' batches,
      m w = (Val tt, w') /\
      settled w l objs w' l' (fst (calls (rcount_ (priv w)))) batches /\
      rcount_ (priv w') = snd (calls (rcount_ (priv w))).

End RetiredBuffer.

(** * Properties *)

(** Running a member function step by step. *)
Ltac step :=
  unfold bind, gets, modify, ret, fail_with; simpl.

Lemma bind_val {W A B} (m : M W A) (k : A -> M W B) w a w' :
  m w = (Val a, w') -> bind m k w = k a w'.
Proof. intros E. unfold bind. now rewrite E. Qed.

Lemma bind_abort {W A B} (m : M W A) (k : A -> M W B) w c w' :
  m w = (Abort c, w') -> bind m k w = (Abort c, w').
Proof. intros E. unfold bind. now rewrite E. Qed.

Lemma bind_undefined {W A B} (m : M W A) (k : A -> M W B) w w' :
  m w = (Undefined, w') -> bind m k w = (Undefined, w').
Proof. intros E. unfold bind. now rewrite E. Qed.

Lemma bind_modify {W B} (f : W -> W) (k : unit -> M W B) w :
  bind (modify f) k w = k tt (f w).
Proof. reflexivity. Qed.

Lemma bind_gets {W A B} (f : W -> A) (k : A -> M W B) w :
  bind (gets f) k w = k (f w) w.
Proof. reflexivity. Qed.

Lemma bind_ret {W A B} (a : A) (k : A -> M W B) w :
  bind (ret a) k w = k a w.
Proof. reflexivity. Qed.

Module GuardCacheFacts.
Import GuardCache.

Lemma world_eta w :
  Build_world (tc w) (steady_clock w) (hprec_pool w) (hprec_taken w)
    (domain_log w) = w.
Proof. now destruct w. Qed.

Lemma tc_eta c :
  Build_hazptr_tc (entry_ c) (count_ c) (local_ c) (num_fills_ c)
    (first_fill_time_ c) = c.
Proof. now destruct c. Qed.

Lemma u8_small z : 0 <= z < 256 -> u8 z = z.
Proof. intros H. unfold u8. now apply Z.mod_small. Qed.

Lemma u16_small z : 0 <= z < 65536 -> u16 z = z.
Proof. intros H. unfold u16. now apply Z.mod_small. Qed.

Lemma entry_get_some i hprec w :
  entry_ (tc w) !! Z.to_nat i = Some hprec -> entry_get i w = (Val hprec, w).
Proof. intros E. unfold entry_get. step. now rewrite E. Qed.

Lemma entry_fill_in_range i hprec w :
  (Z.to_nat i < length (entry_ (tc w)))%nat ->
  entry_fill i hprec w = (Val tt, with_tc (with_entry i hprec) w).
Proof.
  intros H. unfold entry_fill. step.
  destruct (Nat.ltb_spec (Z.to_nat i) (length (entry_ (tc w)))); [easy | lia].
Qed.

Lemma entry_fill_out_of_range i hprec w :
  (length (entry_ (tc w)) <= Z.to_nat i)%nat ->
  entry_fill i hprec w = (Undefined, w).
Proof.
  intros H. unfold entry_fill. step.
  destruct (Nat.ltb_spec (Z.to_nat i) (length (entry_ (tc w)))); [lia | easy].
Qed.

Lemma entry_evict_some i hprec w :
  entry_ (tc w) !! Z.to_nat i = Some hprec -> hprec <> nullptr ->
  entry_evict i w = (Val tt, log_event (HprecRelease hprec) w).
Proof.
  intros E N. unfold entry_evict.
  rewrite (bind_val _ _ _ _ _ (entry_get_some _ _ _ E)).
  destruct (Z.eqb_spec hprec nullptr); [contradiction | reflexivity].
Qed.

(** [try_get] on a cache that holds something, and on one that holds
    nothing. *)
Lemma try_get_occupied w hprec :
  0 < count_ (tc w) < 256 ->
  entry_ (tc w) !! Z.to_nat (count_ (tc w) - 1) = Some hprec ->
  try_get w = (Val hprec, with_tc (with_count (count_ (tc w) - 1)) w).
Proof.
  intros Hc E. unfold try_get, count, set_count. step.
  destruct (Z.ltb_spec 0 (count_ (tc w))); [| lia].
  rewrite u8_small by lia.
  unfold entry_get. step. now rewrite E.
Qed.

Lemma try_get_drained w :
  count_ (tc w) = 0 -> try_get w = (Val nullptr, w).
Proof. intros Hc. unfold try_get, count. step. now rewrite Hc. Qed.

(** [try_put] below the capacity, and at it. *)
Lemma try_put_room hprec w :
  typed_tc (tc w) -> count_ (tc w) < capacity ->
  try_put hprec w =
    (Val true,
     with_tc (with_entry (count_ (tc w)) hprec)
       (with_tc (with_count (count_ (tc w) + 1)) w)).
Proof.
  intros [Hlen Hc] Hlt. unfold capacity, kCapacity in Hlt.
  unfold try_put, count, set_count. step.
  destruct (Z.ltb_spec (count_ (tc w)) capacity);
    [| unfold capacity, kCapacity in *; lia].
  rewrite u8_small by lia.
  unfold entry_fill. step. rewrite Hlen.
  destruct (Nat.ltb_spec (Z.to_nat (count_ (tc w))) 6); [reflexivity | lia].
Qed.

Lemma try_put_full hprec w :
  capacity <= count_ (tc w) -> try_put hprec w = (Val false, w).
Proof.
  intros Hc. unfold try_put, count. step.
  destruct (Z.ltb_spec (count_ (tc w)) capacity); [lia | reflexivity].
Qed.

Lemma wf_tcb_sound c : wf_tcb c = true -> wf_tc c.
Proof.
  unfold wf_tcb, wf_tc. intros H.
  apply andb_prop in H as [H Hall]. apply andb_prop in H as [H Hle].
  apply andb_prop in H as [Hlen Hge].
  apply Nat.eqb_eq in Hlen. apply Z.leb_le in Hge, Hle.
  repeat split; try assumption.
  intros i hprec Hi E ->.
  rewrite forallb_forall in Hall.
  assert (In nullptr (take (Z.to_nat (count_ c)) (entry_ c))) as Hin.
  { apply list_elem_of_In, list_elem_of_lookup. exists i.
    now rewrite lookup_take_lt. }
  specialize (Hall _ Hin). discriminate.
Qed.

Lemma wf_typed c : wf_tc c -> typed_tc c.
Proof.
  intros (Hlen & Hc & _). unfold capacity, kCapacity in Hc.
  split; [assumption | lia].
Qed.

(** C6: [try_get] returns the null pointer, its empty result, exactly
    when [count_] is 0; with [count_] above 0 it returns the record of
    the top occupied slot [entry_[count_ - 1]] and lowers [count_] by
    one. Either way the slots stay as they are and the domain sees no
    call: its log and the number of records it handed out are those of
    before. *)
Theorem try_get_spec (w : world) :
  wf_tc (tc w) ->
  exists hprec w',
    try_get w = (Val hprec, w') /\
    (hprec = nullptr <-> count_ (tc w) = 0) /\
    (0 < count_ (tc w) ->
       entry_ (tc w) !! Z.to_nat (count_ (tc w) - 1) = Some hprec /\
       w' = with_tc (with_count (count_ (tc w) - 1)) w) /\
    (count_ (tc w) = 0 -> w' = w) /\
    entry_ (tc w') = entry_ (tc w) /\
    domain_log w' = domain_log w /\
    hprec_taken w' = hprec_taken w.
Proof.
  intros (Hlen & Hc & Hnn). unfold capacity, kCapacity in Hc.
  destruct (Z.eq_dec (count_ (tc w)) 0) as [Hz | Hz].
  - exists nullptr, w. rewrite (try_get_drained _ Hz).
    repeat split; try easy; lia.
  - assert (Z.to_nat (count_ (tc w) - 1) < length (entry_ (tc w)))%nat as Hi
      by (rewrite Hlen; lia).
    destruct (lookup_lt_is_Some_2 _ _ Hi) as [hprec E].
    exists hprec, (with_tc (with_count (count_ (tc w) - 1)) w).
    rewrite (try_get_occupied _ hprec) by (assumption || lia).
    repeat split; try easy; try lia.
    intros ->. exfalso.
    apply (Hnn (Z.to_nat (count_ (tc w) - 1)) nullptr); [lia | exact E | reflexivity].
Qed.

Lemma try_get_spec_witness :
  wf_tc (tc three_cached) /\
  exists hprec w',
    try_get three_cached = (Val hprec, w') /\
    (hprec = nullptr <-> count_ (tc three_cached) = 0) /\
    (0 < count_ (tc three_cached) ->
       entry_ (tc three_cached) !! Z.to_nat (count_ (tc three_cached) - 1)
         = Some hprec /\
       w' = with_tc (with_count (count_ (tc three_cached) - 1)) three_cached) /\
    (count_ (tc three_cached) = 0 -> w' = three_cached) /\
    entry_ (tc w') = entry_ (tc three_cached) /\
    domain_log w' = domain_log three_cached /\
    hprec_taken w' = hprec_taken three_cached.
Proof.
  assert (wf_tc (tc three_cached)) as H by (apply wf_tcb_sound; reflexivity).
  split; [exact H | exact (try_get_spec three_cached H)].
Defined.

(** C7: [try_put] answers true exactly when [count_] is below the
    capacity of 6; it then stores the record in slot [entry_[count_]],
    the next free one, and raises [count_] by one. On a full cache it
    answers false and the whole state, slots and count included, is the
    one it started from. *)
Theorem try_put_spec (hprec : ptr) (w : world) :
  typed_tc (tc w) ->
  exists b w',
    try_put hprec w = (Val b, w') /\
    (b = true <-> count_ (tc w) < capacity) /\
    (b = true ->
       entry_ (tc w') = <[Z.to_nat (count_ (tc w)) := hprec]> (entry_ (tc w)) /\
       entry_ (tc w') !! Z.to_nat (count_ (tc w)) = Some hprec /\
       count_ (tc w') = count_ (tc w) + 1) /\
    (b = false -> w' = w) /\
    domain_log w' = domain_log w.
Proof.
  intros Ht. pose proof Ht as [Hlen Hc].
  destruct (Z.lt_ge_cases (count_ (tc w)) capacity) as [Hlt | Hge].
  - eexists true, _. rewrite (try_put_room _ _ Ht Hlt). simpl.
    unfold capacity, kCapacity in Hlt.
    repeat split; try easy.
    simpl. apply list_lookup_insert_eq. lia.
  - exists false, w. rewrite (try_put_full _ _ Hge).
    repeat split; try easy. intros Hlt. lia.
Qed.

Lemma try_put_spec_witness :
  typed_tc (tc six_cached) /\
  exists b w',
    try_put 17 six_cached = (Val b, w') /\
    (b = true <-> count_ (tc six_cached) < capacity) /\
    (b = true ->
       entry_ (tc w') =
         <[Z.to_nat (count_ (tc six_cached)) := 17]> (entry_ (tc six_cached)) /\
       entry_ (tc w') !! Z.to_nat (count_ (tc six_cached)) = Some 17 /\
       count_ (tc w') = count_ (tc six_cached) + 1) /\
    (b = false -> w' = six_cached) /\
    domain_log w' = domain_log six_cached.
Proof.
  assert (typed_tc (tc six_cached)) as H by (split; [reflexivity | simpl; lia]).
  split; [exact H | exact (try_put_spec 17 six_cached H)].
Defined.

(** C10: on a cache with [count_] below the capacity, [try_put] of a
    record followed at once by [try_get] gives that record back and
    leaves [count_] and every slot that was occupied as they were; only
    the free slot the record passed through has changed, and the domain
    saw nothing. *)
Theorem try_put_try_get (hprec : ptr) (w : world) :
  typed_tc (tc w) ->
  count_ (tc w) < capacity ->
  exists w',
    (try_put hprec ;;; try_get) w = (Val hprec, w') /\
    count_ (tc w') = count_ (tc w) /\
    (forall i, (i < Z.to_nat (count_ (tc w)))%nat ->
       entry_ (tc w') !! i = entry_ (tc w) !! i) /\
    w' = with_tc (with_entry (count_ (tc w)) hprec) w /\
    domain_log w' = domain_log w.
Proof.
  intros Ht Hlt. pose proof Ht as [Hlen Hc].
  unfold capacity, kCapacity in Hlt.
  exists (with_tc (with_entry (count_ (tc w)) hprec) w).
  rewrite (bind_val _ _ _ _ _ (try_put_room hprec w Ht Hlt)).
  rewrite (try_get_occupied _ hprec); simpl.
  - replace (count_ (tc w) + 1 - 1) with (count_ (tc w)) by lia.
    repeat split; try easy.
    intros i Hi. apply list_lookup_insert_ne. lia.
  - lia.
  - replace (count_ (tc w) + 1 - 1) with (count_ (tc w)) by lia.
    apply list_lookup_insert_eq. lia.
Qed.

Lemma try_put_try_get_witness :
  typed_tc (tc three_cached) /\
  count_ (tc three_cached) < capacity /\
  exists w',
    (try_put 17 ;;; try_get) three_cached = (Val 17, w') /\
    count_ (tc w') = count_ (tc three_cached) /\
    (forall i, (i < Z.to_nat (count_ (tc three_cached)))%nat ->
       entry_ (tc w') !! i = entry_ (tc three_cached) !! i) /\
    w' = with_tc (with_entry (count_ (tc three_cached)) 17) three_cached /\
    domain_log w' = domain_log three_cached.
Proof.
  assert (typed_tc (tc three_cached)) as H by (split; [reflexivity | simpl; lia]).
  assert (count_ (tc three_cached) < capacity) as H' by reflexivity.
  split; [exact H | split; [exact H' | exact (try_put_try_get 17 three_cached H H')]].
Defined.

(** The loop of [~hazptr_tc]: releasing [n] slots from index [i] on. *)
Lemma evict_loop n : forall i w,
  0 <= i ->
  (forall j hprec, (Z.to_nat i <= j < Z.to_nat i + n)%nat ->
     entry_ (tc w) !! j = Some hprec -> hprec <> nullptr) ->
  (Z.to_nat i + n <= length (entry_ (tc w)))%nat ->
  for_loop n i entry_evict w =
    (Val tt,
     Build_world (tc w) (steady_clock w) (hprec_pool w) (hprec_taken w)
       (domain_log w ++
        map HprecRelease (take n (drop (Z.to_nat i) (entry_ (tc w)))))).
Proof.
  induction n as [| n IH]; intros i w Hi Hnn Hlen.
  - simpl. unfold ret. rewrite app_nil_r. now rewrite world_eta.
  - destruct (lookup_lt_is_Some_2 (entry_ (tc w)) (Z.to_nat i)) as [hprec E];
      [lia |].
    cbn [for_loop].
    rewrite (bind_val _ _ _ _ _
               (entry_evict_some i hprec w E
                  (Hnn (Z.to_nat i) hprec ltac:(lia) E))).
    rewrite IH; cbn [log_event tc steady_clock hprec_pool hprec_taken domain_log].
    + replace (Z.to_nat (i + 1)) with (S (Z.to_nat i)) by lia.
      rewrite (drop_S _ _ _ E). cbn [take map].
      now rewrite <- app_assoc.
    + lia.
    + intros j p Hj. apply Hnn. lia.
    + lia.
Qed.

(** [~hazptr_tc] releases the occupied slots, in order, and nothing else. *)
Lemma tc_destructor_run w :
  wf_tc (tc w) ->
  destructor w =
    (Val tt,
     Build_world (tc w) (steady_clock w) (hprec_pool w) (hprec_taken w)
       (domain_log w ++
        map HprecRelease (take (Z.to_nat (count_ (tc w))) (entry_ (tc w))))).
Proof.
  intros (Hlen & Hc & Hnn). unfold capacity, kCapacity in Hc.
  unfold destructor, count. step.
  rewrite evict_loop; [reflexivity | lia | | rewrite Hlen; lia].
  intros j p Hj. apply Hnn. lia.
Qed.

(** C5: torn down with [k] occupied slots, 0 <= k <= 6, the cache
    releases exactly the [k] records of those slots to the domain, one
    release each and nothing else. In particular a fresh cache filled to
    its capacity of 6 by [fill], from which 3 records are then taken,
    has 3 slots occupied and its teardown makes exactly 3 release
    calls; so does one whose 6 records were all taken and 3 of them put
    back. *)
Theorem destructor_releases (w : world) (k : Z) (dcheck_enabled : bool)
    (slots : list ptr) (pool : nat -> ptr) (t : Z) :
  wf_tc (tc w) -> count_ (tc w) = k ->
  length slots = 6%nat -> (forall n, pool n <> nullptr) ->
  (0 <= k <= 6 /\
   exists rel w',
     destructor w = (Val tt, w') /\
     domain_log w' = domain_log w ++ map HprecRelease rel /\
     rel = take (Z.to_nat k) (entry_ (tc w)) /\
     length rel = Z.to_nat k /\
     tc w' = tc w) /\
  (exists hprec w1 w2,
     (fill dcheck_enabled 6 ;;; try_get ;;; try_get ;;; try_get)
       (fresh_world slots pool t) = (Val hprec, w1) /\
     count_ (tc w1) = 3 /\
     destructor w1 = (Val tt, w2) /\
     domain_log w2 =
       domain_log w1 ++
       [HprecRelease (pool 0%nat); HprecRelease (pool 1%nat);
        HprecRelease (pool 2%nat)]) /\
  (exists b w1 w2,
     (fill dcheck_enabled 6 ;;;
      try_get ;;; try_get ;;; try_get ;;; try_get ;;; try_get ;;; try_get ;;;
      try_put (pool 5%nat) ;;; try_put (pool 3%nat) ;;; try_put (pool 4%nat))
       (fresh_world slots pool t) = (Val b, w1) /\
     count_ (tc w1) = 3 /\
     destructor w1 = (Val tt, w2) /\
     domain_log w2 =
       domain_log w1 ++
       [HprecRelease (pool 5%nat); HprecRelease (pool 3%nat);
        HprecRelease (pool 4%nat)]).
Proof.
  intros Hwf Hk Hslots Hpool.
  split; [| split].
  - pose proof Hwf as (Hlen & Hc & _). unfold capacity, kCapacity in Hc.
    split; [lia |].
    eexists _, _. split; [apply (tc_destructor_run w Hwf) |].
    cbn [domain_log tc]. rewrite Hk.
    repeat split. rewrite length_take, Hlen. lia.
  - destruct slots as [| s0 [| s1 [| s2 [| s3 [| s4 [| s5 [| s6 ?]]]]]]];
      try discriminate.
    destruct dcheck_enabled.
    all: eexists _, _, _; split; [vm_compute; reflexivity |];
      split; [reflexivity |]; rewrite tc_destructor_run.
    all: try (split; [reflexivity |]; reflexivity).
    all: split; [reflexivity | split; [cbn; unfold capacity, kCapacity; lia |]].
    all: cbn; intros i p Hi E;
      destruct i as [| [| [| i]]]; try lia; cbn in E;
      injection E as <-; apply Hpool.
  - destruct slots as [| s0 [| s1 [| s2 [| s3 [| s4 [| s5 [| s6 ?]]]]]]];
      try discriminate.
    destruct dcheck_enabled.
    all: eexists _, _, _; split; [vm_compute; reflexivity |];
      split; [reflexivity |]; rewrite tc_destructor_run.
    all: try (split; [reflexivity |]; reflexivity).
    all: split; [reflexivity | split; [cbn; unfold capacity, kCapacity; lia |]].
    all: cbn; intros i p Hi E;
      destruct i as [| [| [| i]]]; try lia; cbn in E;
      injection E as <-; apply Hpool.
Qed.

Lemma destructor_releases_witness :
  wf_tc (tc three_cached) /\
  exists rel w',
    destructor three_cached = (Val tt, w') /\
    domain_log w' = domain_log three_cached ++ map HprecRelease rel /\
    rel = take (Z.to_nat 3) (entry_ (tc three_cached)) /\
    length rel = Z.to_nat 3 /\
    tc w' = tc three_cached.
Proof.
  assert (wf_tc (tc three_cached)) as H by (apply wf_tcb_sound; reflexivity).
  split; [exact H |].
  refine (proj2 (proj1 (destructor_releases three_cached 3 true
                          [0; 0; 0; 0; 0; 0] (fun k => 100 + Z.of_nat k) 0
                          H _ _ _))).
  - reflexivity.
  - reflexivity.
  - intros n. unfold nullptr. lia.
Defined.

(** The rate check of [fill], by the number of refills counted so far. *)
Lemma rate_check_first w :
  num_fills_ (tc w) = 0 ->
  fill_should_not_be_called_frequently w =
    (Val tt,
     with_tc (with_first_fill_time (steady_clock w))
       (with_tc (with_num_fills 1) w)).
Proof.
  intros E. unfold fill_should_not_be_called_frequently, now. step.
  rewrite E. reflexivity.
Qed.

Lemma rate_check_below w :
  0 < num_fills_ (tc w) < max_fills ->
  fill_should_not_be_called_frequently w =
    (Val tt, with_tc (with_num_fills (num_fills_ (tc w) + 1)) w).
Proof.
  intros H. unfold max_fills in H.
  unfold fill_should_not_be_called_frequently, now. step.
  destruct (Z.eqb_spec (num_fills_ (tc w)) 0); [lia |].
  rewrite u16_small by lia. cbn.
  destruct (Z.ltb_spec max_fills (num_fills_ (tc w) + 1));
    [unfold max_fills in *; lia | reflexivity].
Qed.

Lemma rate_check_fires w :
  num_fills_ (tc w) = max_fills ->
  steady_clock w - first_fill_time_ (tc w) <= period_ns ->
  fill_should_not_be_called_frequently w =
    (Abort CheckFailed, with_tc (with_num_fills 11) w).
Proof.
  intros E H.
  unfold fill_should_not_be_called_frequently, now, CHECK. step.
  rewrite E. change (u16 (max_fills + 1)) with 11.
  change (max_fills =? 0) with false. change (max_fills <? 11) with true. cbn.
  destruct (Z.ltb_spec period_ns (steady_clock w - first_fill_time_ (tc w)));
    [lia | reflexivity].
Qed.

Lemma rate_check_passes w :
  num_fills_ (tc w) = max_fills ->
  period_ns < steady_clock w - first_fill_time_ (tc w) ->
  fill_should_not_be_called_frequently w =
    (Val tt,
     with_tc (with_first_fill_time (steady_clock w))
       (with_tc (with_num_fills 1) w)).
Proof.
  intros E H.
  unfold fill_should_not_be_called_frequently, now, CHECK. step.
  rewrite E. change (u16 (max_fills + 1)) with 11.
  change (max_fills =? 0) with false. change (max_fills <? 11) with true. cbn.
  destruct (Z.ltb_spec period_ns (steady_clock w - first_fill_time_ (tc w)));
    [reflexivity | lia].
Qed.

(** [fill] up to its loop: the debug check, then the rate check. *)
Lemma fill_dcheck_fails num w :
  capacity < count_ (tc w) + num ->
  fill true num w = (Abort DcheckFailed, w).
Proof.
  intros H. unfold fill, count, DCHECK. step.
  destruct (Z.leb_spec (count_ (tc w) + num) capacity); [lia | reflexivity].
Qed.

Lemma fill_rate_fails dcheck_enabled num w :
  count_ (tc w) + num <= capacity ->
  num_fills_ (tc w) = max_fills ->
  steady_clock w - first_fill_time_ (tc w) <= period_ns ->
  fill dcheck_enabled num w = (Abort CheckFailed, with_tc (with_num_fills 11) w).
Proof.
  intros Hc E H. unfold fill, count, DCHECK.
  unfold bind at 1. unfold gets at 1.
  destruct (Z.leb_spec (count_ (tc w) + num) capacity); [| lia].
  rewrite andb_false_r. unfold bind at 1. unfold ret at 1.
  now rewrite (bind_abort _ _ _ _ _ (rate_check_fires w E H)).
Qed.

Lemma evict_dcheck_fails num w :
  count_ (tc w) < num ->
  evict true num w = (Abort DcheckFailed, w).
Proof.
  intros H. unfold evict, count, DCHECK. step.
  destruct (Z.leb_spec num (count_ (tc w))); [lia | reflexivity].
Qed.

Lemma refill_at_counts d t w w1 n f :
  idle n f (at_time t w) ->
  fill_should_not_be_called_frequently (at_time t w) = (Val tt, w1) ->
  entry_ (tc w1) = entry_ (tc w) -> count_ (tc w1) = 0 ->
  exists w', refill_at d t w = (Val tt, w') /\
    length (entry_ (tc w')) = 6%nat /\ count_ (tc w') = 0 /\
    num_fills_ (tc w') = num_fills_ (tc w1) /\
    first_fill_time_ (tc w') = first_fill_time_ (tc w1).
Proof.
  intros (Hlen & Hc & _ & _) Hrate He Hc1. cbn in Hlen, Hc.
  unfold refill_at, fill, count, DCHECK.
  unfold bind at 1. unfold bind at 1. unfold gets at 1.
  cbn [tc at_time count_]. rewrite Hc. cbn [Z.add Z.leb Z.compare capacity kCapacity negb].
  rewrite andb_false_r. unfold bind at 1. unfold ret at 1.
  rewrite (bind_val _ _ _ _ _ Hrate).
  unfold for_loop, hprec_acquire, set_count, entry_fill, try_get, count,
    set_count, entry_get.
  step. rewrite Hc1, He, Hlen.
  change (Z.to_nat 0) with 0%nat. change (u8 (0 + 1)) with 1. cbn.
  rewrite He.
  destruct (entry_ (tc w)) as [| e0 es]; [discriminate |]. cbn.
  eexists. split; [reflexivity |]. cbn.
  rewrite length_insert, He. now repeat split.
Qed.

Lemma refill_at_first d t w f :
  idle 0 f w ->
  exists w', refill_at d t w = (Val tt, w') /\ idle 1 t w'.
Proof.
  intros (Hlen & Hc & Hn & Hf).
  destruct (refill_at_counts d t w _ 0 f ltac:(now split)
              (rate_check_first (at_time t w) Hn) eq_refl Hc)
    as (w' & Hr & Hl' & Hc' & Hn' & Hf').
  exists w'. split; [exact Hr |]. now repeat split.
Qed.

Lemma refill_at_below d t w n f :
  idle n f w -> 0 < n < max_fills ->
  exists w', refill_at d t w = (Val tt, w') /\ idle (n + 1) f w'.
Proof.
  intros (Hlen & Hc & Hn & Hf) Hlt.
  destruct (refill_at_counts d t w _ n f ltac:(now split)
              (rate_check_below (at_time t w) ltac:(cbn; lia)) eq_refl Hc)
    as (w' & Hr & Hl' & Hc' & Hn' & Hf').
  exists w'. split; [exact Hr |].
  cbn in Hn', Hf'. repeat split; try assumption; congruence.
Qed.

Lemma refill_at_fires d t w f :
  idle max_fills f w -> t - f <= period_ns ->
  fst (refill_at d t w) = Abort CheckFailed.
Proof.
  intros (Hlen & Hc & Hn & Hf) Hlt.
  unfold refill_at.
  rewrite (bind_abort _ _ _ _ _
             (fill_rate_fails d 1 (at_time t w)
                ltac:(cbn; rewrite Hc; unfold capacity, kCapacity; lia)
                Hn ltac:(cbn; lia))).
  reflexivity.
Qed.

Lemma refills_at_below d ts : forall w n f,
  idle n f w -> 0 < n -> n + Z.of_nat (length ts) <= max_fills ->
  exists w', refills_at d ts w = (Val tt, w') /\
    idle (n + Z.of_nat (length ts)) f w'.
Proof.
  induction ts as [| t ts IH]; intros w n f Hi Hn Hle.
  - exists w. split; [reflexivity |]. cbn. now rewrite Z.add_0_r.
  - cbn [length] in Hle. cbn [refills_at].
    destruct (refill_at_below d t w n f Hi ltac:(lia)) as (w1 & Hr & Hi1).
    rewrite (bind_val _ _ _ _ _ Hr).
    destruct (IH w1 (n + 1) f Hi1 ltac:(lia) ltac:(lia)) as (w' & Hr' & Hi').
    exists w'. split; [exact Hr' |].
    cbn [length]. now replace (n + Z.of_nat (S (length ts)))
      with (n + 1 + Z.of_nat (length ts)) by lia.
Qed.

Lemma refills_at_app d ts1 ts2 w w1 :
  refills_at d ts1 w = (Val tt, w1) ->
  refills_at d (ts1 ++ ts2) w = refills_at d ts2 w1.
Proof.
  revert w. induction ts1 as [| t ts1 IH]; intros w H.
  - cbn in H. unfold ret in H. now injection H as <-.
  - cbn [refills_at app] in *. unfold bind in *.
    destruct (refill_at d t w) as [[[] | | |] w2]; try discriminate.
    now apply IH.
Qed.









(** C9, as the code has it: the window is anchored, not rolling. The
    first refill starts a window; the next nine are only counted; the
    eleventh counted since the window started raises the fatal
    diagnostic when it comes no more than 1 ms after that start, and
    otherwise sets the count back to 1 and starts a new window at its
    own time. In particular, of 11 refills of a fresh cache that lie
    within 0.5 ms the first ten pass and the eleventh raises the
    diagnostic. *)
Theorem refill_rate_check (d : bool) (w : world) (slots : list ptr)
    (pool : nat -> ptr) (t0 t1 t11 : Z) (mid : list Z) :
  0 <= num_fills_ (tc w) <= max_fills ->
  length slots = 6%nat -> length mid = 9%nat -> t11 - t1 <= 500000 ->
  (num_fills_ (tc w) = 0 ->
     fill_should_not_be_called_frequently w =
       (Val tt,
        with_tc (with_first_fill_time (steady_clock w))
          (with_tc (with_num_fills 1) w))) /\
  (0 < num_fills_ (tc w) < max_fills ->
     fill_should_not_be_called_frequently w =
       (Val tt, with_tc (with_num_fills (num_fills_ (tc w) + 1)) w)) /\
  (num_fills_ (tc w) = max_fills ->
   steady_clock w - first_fill_time_ (tc w) <= period_ns ->
     fill_should_not_be_called_frequently w =
       (Abort CheckFailed, with_tc (with_num_fills 11) w) /\
     forall num, count_ (tc w) + num <= capacity ->
       fill d num w = (Abort CheckFailed, with_tc (with_num_fills 11) w)) /\
  (num_fills_ (tc w) = max_fills ->
   period_ns < steady_clock w - first_fill_time_ (tc w) ->
     fill_should_not_be_called_frequently w =
       (Val tt,
        with_tc (with_first_fill_time (steady_clock w))
          (with_tc (with_num_fills 1) w))) /\
  (exists w10,
     refills_at d (t1 :: mid) (fresh_world slots pool t0) = (Val tt, w10) /\
     num_fills_ (tc w10) = 10 /\ first_fill_time_ (tc w10) = t1) /\
  fst (refills_at d ((t1 :: mid) ++ [t11]) (fresh_world slots pool t0))
    = Abort CheckFailed.
Proof.
  intros Hn Hslots Hmid Ht.
  split; [apply rate_check_first |].
  split; [apply rate_check_below |].
  split; [intros E H; split;
          [now apply rate_check_fires
          | intros num Hc; now apply fill_rate_fails] |].
  split; [apply rate_check_passes |].
  assert (idle 0 0 (fresh_world slots pool t0)) as Hi by now repeat split.
  destruct (refill_at_first d t1 _ 0 Hi) as (w1 & Hr1 & Hi1).
  destruct (refills_at_below d mid w1 1 t1 Hi1 ltac:(lia)
              ltac:(rewrite Hmid; unfold max_fills; lia))
    as (w10 & Hr & Hi10).
  rewrite Hmid in Hi10. change (1 + Z.of_nat 9) with max_fills in Hi10.
  assert (refills_at d (t1 :: mid) (fresh_world slots pool t0) = (Val tt, w10))
    as Hrun by (cbn [refills_at]; now rewrite (bind_val _ _ _ _ _ Hr1)).
  split.
  - exists w10. split; [exact Hrun |]. now destruct Hi10 as (_ & _ & ? & ?).
  - rewrite (refills_at_app _ _ _ _ _ Hrun). cbn [refills_at].
    unfold bind.
    pose proof (refill_at_fires d t11 w10 t1 Hi10
                  ltac:(unfold period_ns; lia)) as Hf.
    destruct (refill_at d t11 w10) as [r w']. cbn in Hf. now subst r.
Qed.

Lemma refill_rate_check_witness :
  0 <= num_fills_ (tc none_cached) <= max_fills /\
  (exists w10,
     refills_at true (take 10 (drop 1 burst_after_pause)) none_cached
       = (Val tt, w10) /\
     num_fills_ (tc w10) = 10 /\ first_fill_time_ (tc w10) = 2000000) /\
  fst (refills_at true (drop 1 burst_after_pause) none_cached)
    = Abort CheckFailed.
Proof.
  assert (0 <= num_fills_ (tc none_cached) <= max_fills) as H
    by (cbn; unfold max_fills; lia).
  split; [exact H |].
  refine (proj2 (proj2 (proj2 (proj2
    (refill_rate_check true none_cached [0; 0; 0; 0; 0; 0]
       (fun k => 100 + Z.of_nat k) 0 2000000 2500000
       (take 9 (drop 2 burst_after_pause)) H _ _ _))))).
  - reflexivity.
  - reflexivity.
  - lia.
Defined.

(** C9 as stated fails: the eleven refills at 2.0 ms to 2.5 ms lie within
    0.5 ms, and none of the twelve calls raises the diagnostic, because
    the window that the eleventh call overall closes started with the
    first one, 2.45 ms earlier. *)
Lemma rolling_window_counterexample :
  length (drop 1 burst_after_pause) = 11%nat /\
  (forall t, In t (drop 1 burst_after_pause) -> 2000000 <= t <= 2500000) /\
  refills_at true burst_after_pause none_cached =
    (Val tt,
     Build_world
       (Build_hazptr_tc [111; 0; 0; 0; 0; 0] 0 false 2 2450000) 2500000
       (hprec_pool none_cached) 12
       (map (fun k => HprecAcquire (100 + Z.of_nat k)) (seq 0 12))).
Proof.
  split; [reflexivity | split].
  - cbn. intros t Ht. repeat (destruct Ht as [<- | Ht]; [lia |]). destruct Ht.
  - reflexivity.
Qed.

End GuardCacheFacts.

Module RetiredBufferFacts.
Import RetiredBuffer.

Lemma push_unfold d spin obj reentrant :
  push d spin (Retire obj reentrant) = push_body d spin obj (run d spin reentrant).
Proof. reflexivity. Qed.

Lemma objs_of_unfold obj reentrant :
  objs_of (Retire obj reentrant) = obj :: objs_of_all reentrant.
Proof. reflexivity. Qed.

Lemma objs_of_all_plain objs : objs_of_all (map plain objs) = objs.
Proof. induction objs as [| o objs IH]; cbn; [reflexivity | now rewrite IH]. Qed.

(** *** Lists in the heap of [next_] links *)

Lemma lseg_null_inv next l : lseg next nullptr l -> l = [].
Proof. inversion 1; [reflexivity | contradiction]. Qed.

Lemma lseg_nonnull next p l : lseg next p l -> Forall (fun x => x <> nullptr) l.
Proof. induction 1; constructor; assumption. Qed.

Lemma lseg_head next p l : lseg next p l -> p = hd nullptr l.
Proof. destruct 1; reflexivity. Qed.

Lemma lseg_linked next p l x : lseg next p l -> x ∈ l -> is_Some (next !! x).
Proof.
  induction 1 as [| p q l Hp Hq Hl IH]; intros Hx.
  - now apply elem_of_nil in Hx.
  - apply elem_of_cons in Hx as [-> | Hx]; [now exists q | now apply IH].
Qed.

Lemma lseg_insert_fresh next p l o v :
  lseg next p l -> o ∉ l -> lseg (<[o := v]> next) p l.
Proof.
  induction 1 as [| p q l Hp Hq Hl IH]; intros Ho.
  - constructor.
  - apply not_elem_of_cons in Ho as [Hne Ho].
    apply (lseg_cons _ p q); [assumption | | now apply IH].
    now rewrite lookup_insert_ne.
Qed.

Lemma lseg_functional next p l1 : lseg next p l1 ->
  forall l2, lseg next p l2 -> l1 = l2.
Proof.
  induction 1 as [| p q l Hp Hq Hl IH]; intros l2 H2.
  - symmetry. now apply (lseg_null_inv next).
  - inversion H2 as [| p' q' l' Hp' Hq' Hl']; subst; [contradiction |].
    rewrite Hq in Hq'. injection Hq' as <-. f_equal. now apply IH.
Qed.

Lemma linked_length_le_size (next : gmap Z Z) (l : list ptr) :
  NoDup l -> (forall x, x ∈ l -> is_Some (next !! x)) ->
  (length l <= size next)%nat.
Proof.
  intros Hnd Hin.
  rewrite <- (size_list_to_set (C := gset Z) l Hnd), <- size_dom.
  apply subseteq_size. intros x Hx.
  apply elem_of_list_to_set in Hx. apply elem_of_dom. now apply Hin.
Qed.

(** Walking from the head to the last node of a list without repetition
    collects the list. *)
Lemma walk_lseg next p l : lseg next p l ->
  forall fuel, l <> [] -> NoDup l -> (length l <= fuel)%nat ->
  walk fuel next p (default nullptr (last l)) = l.
Proof.
  induction 1 as [| p q l Hp Hq Hl IH]; intros fuel Hne Hnd Hlen;
    [contradiction |].
  destruct fuel as [| fuel]; [cbn in Hlen; lia |].
  cbn [walk]. destruct (Z.eqb_spec p nullptr) as [| _]; [contradiction |].
  apply NoDup_cons in Hnd as [Hnotin Hnd].
  destruct l as [| x l'].
  - cbn. now rewrite Z.eqb_refl.
  - assert (default nullptr (last (p :: x :: l')) =
            default nullptr (last (x :: l'))) as -> by reflexivity.
    assert (default nullptr (last (x :: l')) ∈ x :: l') as Hin.
    { destruct (last (x :: l')) as [y |] eqn:E.
      - cbn. apply last_Some in E as [l'' ->]. set_solver.
      - now apply last_None in E. }
    destruct (Z.eqb_spec p (default nullptr (last (x :: l')))) as [E | _].
    { rewrite <- E in Hin. contradiction. }
    rewrite Hq. f_equal. apply IH; [discriminate | assumption |].
    cbn in *. lia.
Qed.

(** *** What [buffered] gives *)

Lemma buffered_null w l :
  buffered w l ->
  (head_ (priv w) = nullptr <-> l = []) /\
  (tail_ (priv w) = nullptr <-> l = []).
Proof.
  intros (Hseg & Htail & Hnd).
  pose proof (lseg_nonnull _ _ _ Hseg) as Hnn.
  split; split.
  - intros E. rewrite E in Hseg. now apply (lseg_null_inv (next_ w)).
  - intros ->. now apply lseg_head in Hseg.
  - intros E. destruct (last l) as [y |] eqn:El.
    + cbn in Htail. rewrite Forall_forall in Hnn.
      apply last_Some in El as [l' ->].
      exfalso. apply (Hnn y); [set_solver | congruence].
    + now apply last_None in El.
  - intros ->. exact Htail.
Qed.

Lemma buffered_head_iff_tail w l :
  buffered w l -> (head_ (priv w) = nullptr <-> tail_ (priv w) = nullptr).
Proof. intros H. destruct (buffered_null w l H) as [H1 H2]. tauto. Qed.

Lemma buffered_fresh next : buffered (fresh_world next) [].
Proof. repeat split; cbn; constructor. Qed.

Lemma linked_buffered obj w l :
  buffered w l -> obj <> nullptr -> obj ∉ l ->
  buffered (linked obj w) (obj :: l).
Proof.
  intros Hb Hobj Hfresh. pose proof (buffered_null w l Hb) as [Hh Ht].
  destruct Hb as (Hseg & Htail & Hnd).
  repeat split; cbn.
  - apply (lseg_cons _ obj (head_ (priv w))); [assumption | |].
    + apply lookup_insert_eq.
    + now apply lseg_insert_fresh.
  - destruct (Z.eqb_spec (tail_ (priv w)) nullptr) as [E | E].
    + apply Ht in E. now subst l.
    + destruct l as [| x l']; [now destruct E; apply Ht |].
      rewrite Htail. reflexivity.
  - now apply NoDup_cons.
Qed.

(** The loop of [push_in_priv_list] links the object at its first
    round. *)
Lemma push_loop_run spin obj w l :
  buffered w l -> obj <> nullptr ->
  push_loop (S spin) obj w = (Val tt, linked obj w).
Proof.
  intros Hb Hobj. pose proof (buffered_null w l Hb) as [Hh Ht].
  cbn [push_loop]. unfold tail, push_in_non_empty_list, push_in_empty_list,
    head, set_next, cas_head, cas_tail, set_head, linked.
  step.
  destruct (Z.eqb_spec obj nullptr) as [| _]; [contradiction |].
  destruct (Z.eqb_spec (tail_ (priv w)) nullptr) as [E | E]; cbn.
  - rewrite E. cbn.
    destruct (Z.eqb_spec obj nullptr) as [| _]; [contradiction |]. cbn.
    replace (head_ (priv w)) with nullptr; [reflexivity |].
    symmetry. apply Hh. now apply Ht.
  - destruct (Z.eqb_spec (head_ (priv w)) nullptr) as [E' | E']; cbn.
    + exfalso. apply E. apply Ht. now apply Hh.
    + destruct (Z.eqb_spec obj nullptr) as [| _]; [contradiction |]. cbn.
      now rewrite Z.eqb_refl.
Qed.

(** *** [collect] and [push_all_to_domain] *)

Lemma priv_eta_null_head w :
  head_ (priv w) = nullptr -> with_priv (with_head nullptr) w = w.
Proof. destruct w as [[h t r d] n lg cs]. cbn. now intros ->. Qed.

Lemma collect_empty d w :
  head_ (priv w) = nullptr ->
  collect d nullptr nullptr w = (Val (nullptr, nullptr), w).
Proof.
  intros E. unfold collect, exchange_head, head. step.
  rewrite (priv_eta_null_head w E), E. reflexivity.
Qed.

Lemma collect_run d w l :
  buffered w l -> l <> [] ->
  collect d nullptr nullptr w =
    (Val (head_ (priv w), tail_ (priv w)), detached w).
Proof.
  intros Hb Hne. pose proof (buffered_null w l Hb) as [Hh Ht].
  unfold collect, exchange_head, exchange_tail, head, tail, DCHECK. step.
  destruct (Z.eqb_spec (head_ (priv w)) nullptr) as [E | _];
    [now apply Hh in E |]. cbn.
  destruct (Z.eqb_spec (tail_ (priv w)) nullptr) as [E | _];
    [now apply Ht in E |]. cbn.
  rewrite andb_false_r. reflexivity.
Qed.

Lemma flush_empty d R w :
  head_ (priv w) = nullptr -> push_all_to_domain d R w = (Val tt, w).
Proof.
  intros E. unfold push_all_to_domain.
  rewrite (bind_val _ _ _ _ _ (collect_empty d w E)). reflexivity.
Qed.

Lemma flush_run d R w l :
  buffered w l -> l <> [] ->
  push_all_to_domain d R w =
    (R ;;; modify (with_priv (with_rcount 0))) (handed_over l w).
Proof.
  intros Hb Hne. pose proof (buffered_null w l Hb) as [Hh Ht].
  unfold push_all_to_domain.
  rewrite (bind_val _ _ _ _ _ (collect_run d w l Hb Hne)).
  cbn [fst snd].
  destruct (Z.eqb_spec (head_ (priv w)) nullptr) as [E | _];
    [now apply Hh in E |].
  destruct (Z.eqb_spec (tail_ (priv w)) nullptr) as [E | _];
    [now apply Ht in E |].
  unfold DCHECK. cbn [negb]. rewrite andb_false_r.
  assert (walk (S (size (next_ w))) (next_ w) (head_ (priv w))
            (tail_ (priv w)) = l) as Hw.
  { destruct Hb as (Hseg & Htail & Hnd).
    rewrite Htail. apply (walk_lseg _ _ _ Hseg); try assumption.
    apply Nat.le_le_succ_r, linked_length_le_size; [assumption |].
    intros x. apply (lseg_linked _ _ _ _ Hseg). }
  unfold hazptr_domain_push_retired, bind, gets, modify.
  cbn -[walk]. now rewrite Hw.
Qed.

(** *** The three ways through [push] *)

Lemma pre_increment_rcount_run w :
  rcount_ (priv w) < INT_MAX ->
  pre_increment_rcount w = (Val (rcount_ (priv w) + 1), counted w).
Proof.
  intros H. unfold pre_increment_rcount. rewrite bind_gets.
  destruct (Z.eqb_spec (rcount_ (priv w)) INT_MAX) as [E | _]; [lia |].
  reflexivity.
Qed.

Lemma push_body_below d spin obj R w l :
  buffered w l -> in_dtor_ (priv w) = false -> obj <> nullptr ->
  rcount_ (priv w) + 1 < kThreshold ->
  push_body d (S spin) obj R w = (Val tt, counted (linked obj (with_call obj w))).
Proof.
  intros Hb Hd Hobj Hlt. unfold kThreshold in Hlt.
  unfold push_body, push_in_priv_list.
  rewrite bind_modify, bind_gets. cbn [with_call priv]. rewrite Hd. cbn [negb].
  rewrite (bind_val _ _ _ _ _ (push_loop_run spin obj (with_call obj w) l Hb Hobj)).
  rewrite (bind_val _ _ _ _ _
             (pre_increment_rcount_run (linked obj (with_call obj w))
                ltac:(cbn; unfold INT_MAX; lia))).
  cbn [linked with_call priv rcount_].
  destruct (Z.leb_spec kThreshold (rcount_ (priv w) + 1));
    [unfold kThreshold in *; lia | reflexivity].
Qed.

Lemma push_body_flush d spin obj R w l :
  buffered w l -> in_dtor_ (priv w) = false -> obj <> nullptr -> obj ∉ l ->
  kThreshold <= rcount_ (priv w) + 1 -> rcount_ (priv w) < INT_MAX ->
  push_body d (S spin) obj R w =
    (R ;;; modify (with_priv (with_rcount 0)))
      (handed_over (obj :: l) (counted (linked obj (with_call obj w)))).
Proof.
  intros Hb Hd Hobj Hfresh Hge Hmax.
  unfold push_body, push_in_priv_list.
  rewrite bind_modify, bind_gets. cbn [with_call priv]. rewrite Hd. cbn [negb].
  rewrite (bind_val _ _ _ _ _ (push_loop_run spin obj (with_call obj w) l Hb Hobj)).
  rewrite (bind_val _ _ _ _ _
             (pre_increment_rcount_run (linked obj (with_call obj w)) Hmax)).
  cbn [linked with_call priv rcount_].
  destruct (Z.leb_spec kThreshold (rcount_ (priv w) + 1)); [| lia].
  apply (flush_run d R _ (obj :: l)); [| discriminate].
  apply (linked_buffered obj (with_call obj w) l Hb Hobj Hfresh).
Qed.

Lemma push_body_torn_down d spin obj R w :
  in_dtor_ (priv w) = true -> obj <> nullptr ->
  push_body d spin obj R w =
    R (with_batch (single_obj_list obj, [obj]) (with_call obj w)).
Proof.
  intros Hd Hobj.
  unfold push_body, hazptr_domain_push_retired, bind, gets, modify.
  cbn. rewrite Hd. cbn.
  destruct (Z.eqb_spec obj nullptr) as [| _]; [contradiction |].
  now rewrite Z.eqb_refl.
Qed.

(** *** Scripts of calls, reentrant ones included *)

Lemma called_unfold torn obj reentrant r :
  called torn (Retire obj reentrant) r =
    if torn then (obj :: fst (called_all torn reentrant r), r)
    else if r + 1 <? kThreshold then ([obj], r + 1)
    else (obj :: fst (called_all torn reentrant (r + 1)), 0).
Proof. reflexivity. Qed.

Lemma safe_ret : safe (ret tt) [] (fun r => ([], r)).
Proof.
  intros w l (Hb & Hd & Hnd & Hnn & Hr0 & Hr).
  exists w, l, []. split; [reflexivity |]. split; [| reflexivity].
  unfold settled. cbn [fst snd]. split_and!; try assumption; try (cbn; lia).
  - now rewrite app_nil_r.
  - now rewrite app_nil_r.
  - constructor.
  - cbn. now rewrite app_nil_r.
Qed.

Lemma safe_seq A B oa ob ca cb :
  safe A oa ca -> safe B ob cb ->
  safe (A ;;; B) (oa ++ ob)
    (fun r => (fst (ca r) ++ fst (cb (snd (ca r))), snd (cb (snd (ca r))))).
Proof.
  intros HA HB w l (Hb & Hd & Hnd & Hnn & Hr0 & Hr).
  rewrite length_app, Nat2Z.inj_add in Hr.
  apply Forall_app in Hnn as [Hnna Hnnb].
  apply NoDup_app in Hnd as (Hab & Hab_l & Hl).
  apply NoDup_app in Hab as (Hnda & Ha_b & Hndb).
  assert (forall x, x ∈ oa -> x ∉ l) as Ha_l
    by (intros x Hx; apply Hab_l; set_solver).
  assert (forall x, x ∈ ob -> x ∉ l) as Hb_l
    by (intros x Hx; apply Hab_l; set_solver).
  destruct (HA w l) as (w1 & l1 & b1 & Hrun1 & S1 & Hcnt1).
  { unfold ready. split_and!; try assumption; [| lia].
    apply NoDup_app. split_and!; assumption. }
  set (p1 := fst (ca (rcount_ (priv w)))) in *.
  destruct S1 as (Hb1 & Hd1 & Hr1 & Hc1 & Hlog1 & Hsub1 & Hperm1).
  assert (forall x, x ∈ p1 -> x ∈ oa) as Hp1
    by (intros x Hx; exact (elem_of_sublist _ _ x Hx Hsub1)).
  assert (NoDup (p1 ++ l)) as Hpl.
  { apply NoDup_app. split_and!; try assumption.
    - exact (sublist_NoDup _ _ Hnda Hsub1).
    - intros x Hx. apply Ha_l. now apply Hp1. }
  destruct (HB w1 l1) as (w2 & l2 & b2 & Hrun2 & S2 & Hcnt2).
  { unfold ready. split_and!; try assumption; try lia.
    apply NoDup_app. split_and!; try assumption.
    - intros x Hx Hl1.
      assert (x ∈ p1 ++ l) as Hin
        by (rewrite <- Hperm1; apply elem_of_app; now left).
      apply elem_of_app in Hin as [Hin | Hin].
      + apply (Ha_b x); [now apply Hp1 | assumption].
      + now apply (Hb_l x).
    - rewrite <- Hperm1 in Hpl. now apply NoDup_app in Hpl as (? & _ & _). }
  rewrite Hcnt1 in S2, Hcnt2.
  set (p2 := fst (cb (snd (ca (rcount_ (priv w)))))) in *.
  destruct S2 as (Hb2 & Hd2 & Hr2 & Hc2 & Hlog2 & Hsub2 & Hperm2).
  exists w2, l2, (b1 ++ b2).
  split; [now rewrite (bind_val _ _ _ _ _ Hrun1) |].
  split; [| exact Hcnt2].
  unfold settled. cbn [fst snd]. fold p1 p2.
  split_and!; try assumption; try lia.
  - rewrite length_app, Nat2Z.inj_add. lia.
  - now rewrite Hc2, Hc1, app_assoc.
  - now rewrite Hlog2, Hlog1, app_assoc.
  - now apply sublist_app.
  - unfold flushed in *. rewrite map_app, concat_app.
    rewrite (Permutation_app_comm (concat (map snd b1))), app_assoc, Hperm2.
    rewrite <- app_assoc, Hperm1.
    rewrite !app_assoc. apply Permutation_app_tail, Permutation_app_comm.
Qed.

Lemma safe_push_body d spin obj R objs cR :
  safe R objs cR ->
  safe (push_body d (S spin) obj R) (obj :: objs)
    (fun r => if r + 1 <? kThreshold then ([obj], r + 1)
              else (obj :: fst (cR (r + 1)), 0)).
Proof.
  intros HR w l (Hb & Hd & Hnd & Hnn & Hr0 & Hr).
  cbn [length] in Hr. rewrite Nat2Z.inj_succ in Hr.
  apply Forall_cons in Hnn as [Hobj Hnn].
  cbn [app] in Hnd. apply NoDup_cons in Hnd as [Hfresh Hnd].
  apply not_elem_of_app in Hfresh as [Hfresh_objs Hfresh].
  apply NoDup_app in Hnd as (Hndo & Ho_l & Hndl).
  destruct (Z.ltb_spec (rcount_ (priv w) + 1) kThreshold) as [Hlt | Hge].
  - exists (counted (linked obj (with_call obj w))), (obj :: l), [].
    split; [exact (push_body_below d spin obj R w l Hb Hd Hobj Hlt) |].
    split; [| reflexivity].
    unfold settled. cbn [fst snd]. split_and!.
    + exact (linked_buffered obj (with_call obj w) l Hb Hobj Hfresh).
    + exact Hd.
    + cbn. lia.
    + cbn [length]. rewrite Nat2Z.inj_succ. cbn. lia.
    + reflexivity.
    + cbn. now rewrite app_nil_r.
    + apply sublist_skip, sublist_nil_l.
    + cbn. now rewrite app_nil_r.
  - rewrite (push_body_flush d spin obj R w l Hb Hd Hobj Hfresh Hge
               ltac:(lia)).
    set (w2 := handed_over (obj :: l) (counted (linked obj (with_call obj w)))).
    destruct (HR w2 []) as (w3 & l3 & b3 & Hrun & S3 & _).
    { unfold ready. split_and!.
      - repeat split; cbn; constructor.
      - exact Hd.
      - now rewrite app_nil_r.
      - exact Hnn.
      - cbn. lia.
      - cbn. lia. }
    change (rcount_ (priv w2)) with (rcount_ (priv w) + 1) in S3.
    set (p3 := fst (cR (rcount_ (priv w) + 1))) in *.
    destruct S3 as (Hb3 & Hd3 & Hr3 & Hc3 & Hlog3 & Hsub3 & Hperm3).
    cbn in Hc3, Hlog3.
    exists (with_priv (with_rcount 0) w3), l3,
      ((Build_hazptr_obj_list obj
          (if tail_ (priv w) =? nullptr then obj else tail_ (priv w))
          (rcount_ (priv w) + 1), obj :: l) :: b3).
    split; [now rewrite (bind_val _ _ _ _ _ Hrun) |].
    split; [| reflexivity].
    unfold settled. cbn [fst snd]. fold p3. split_and!.
    + exact Hb3.
    + exact Hd3.
    + cbn. lia.
    + cbn. lia.
    + cbn. now rewrite Hc3, <- app_assoc.
    + cbn. now rewrite Hlog3, <- app_assoc.
    + now apply sublist_skip.
    + unfold flushed in *. cbn [map snd concat].
      rewrite app_nil_r in Hperm3.
      rewrite (Permutation_app_comm (obj :: l)), app_assoc, Hperm3.
      cbn. rewrite Permutation_middle. reflexivity.
Qed.

Lemma safe_run d spin cs :
  Forall (fun c => safe (push d (S spin) c) (objs_of c) (called false c)) cs ->
  safe (run d (S spin) cs) (objs_of_all cs) (called_all false cs).
Proof.
  induction 1 as [| c cs Hc Hcs IH]; cbn [run objs_of_all].
  - apply safe_ret.
  - exact (safe_seq _ _ _ _ _ _ Hc IH).
Qed.

Lemma safe_push d spin c : safe (push d (S spin) c) (objs_of c) (called false c).
Proof.
  induction c as [obj reentrant IH] using retire_ind.
  rewrite push_unfold, objs_of_unfold.
  exact (safe_push_body d spin obj _ _ _ (safe_run d spin reentrant IH)).
Qed.

Lemma safe_script d spin cs :
  safe (run d (S spin) cs) (objs_of_all cs) (called_all false cs).
Proof. apply safe_run, Forall_forall. intros c _. apply safe_push. Qed.

(** *** Calls into which nothing comes back *)

Lemma run_app d spin cs1 cs2 w w1 :
  run d spin cs1 w = (Val tt, w1) ->
  run d spin (cs1 ++ cs2) w = run d spin cs2 w1.
Proof.
  revert w. induction cs1 as [| c cs1 IH]; intros w H.
  - cbn in H. unfold ret in H. now injection H as <-.
  - cbn [run app] in *. unfold bind in *.
    destruct (push d spin c w) as [[[] | | |] w2]; try discriminate.
    now apply IH.
Qed.

Lemma objs_of_all_app cs1 cs2 :
  objs_of_all (cs1 ++ cs2) = objs_of_all cs1 ++ objs_of_all cs2.
Proof.
  induction cs1 as [| c cs1 IH]; cbn; [reflexivity |].
  now rewrite IH, app_assoc.
Qed.

Lemma ready_prefix w l o1 o2 : ready w l (o1 ++ o2) -> ready w l o1.
Proof.
  intros (Hb & Hd & Hnd & Hnn & Hr0 & Hr).
  rewrite length_app, Nat2Z.inj_add in Hr.
  apply Forall_app in Hnn as [Hnn _].
  unfold ready. split_and!; try assumption; [| lia].
  rewrite <- app_assoc in Hnd.
  apply NoDup_app in Hnd as (H1 & Hdisj & H23).
  apply NoDup_app in H23 as (_ & _ & H3).
  apply NoDup_app. split_and!; try assumption.
  intros x Hx Hl. apply (Hdisj x Hx). apply elem_of_app. now right.
Qed.

Lemma push_plain_below d spin obj w l :
  buffered w l -> in_dtor_ (priv w) = false -> obj <> nullptr ->
  rcount_ (priv w) + 1 < kThreshold ->
  push d (S spin) (plain obj) w =
    (Val tt, counted (linked obj (with_call obj w))).
Proof. intros. unfold plain. rewrite push_unfold. now apply (push_body_below _ _ _ _ _ l). Qed.

Lemma push_plain_flush d spin obj w l :
  buffered w l -> in_dtor_ (priv w) = false -> obj <> nullptr -> obj ∉ l ->
  kThreshold <= rcount_ (priv w) + 1 -> rcount_ (priv w) < INT_MAX ->
  push d (S spin) (plain obj) w =
    (Val tt,
     with_priv (with_rcount 0)
       (handed_over (obj :: l) (counted (linked obj (with_call obj w))))).
Proof.
  intros. unfold plain. rewrite push_unfold.
  now rewrite (push_body_flush _ _ _ _ _ l).
Qed.

(** Below the threshold plain pushes pile up in front of the list and
    the domain hears nothing. *)
Lemma run_plain_below d spin objs : forall w l,
  buffered w l -> in_dtor_ (priv w) = false ->
  NoDup (objs ++ l) -> Forall (fun o => o <> nullptr) objs ->
  rcount_ (priv w) + Z.of_nat (length objs) < kThreshold ->
  exists w',
    run d (S spin) (map plain objs) w = (Val tt, w') /\
    buffered w' (rev objs ++ l) /\
    rcount_ (priv w') = rcount_ (priv w) + Z.of_nat (length objs) /\
    in_dtor_ (priv w') = false /\
    domain_log w' = domain_log w /\
    retire_calls w' = retire_calls w ++ objs.
Proof.
  induction objs as [| obj objs IH]; intros w l Hb Hd Hnd Hnn Hlt.
  - exists w. cbn. rewrite Z.add_0_r, app_nil_r. now split_and!.
  - cbn [length] in Hlt. rewrite Nat2Z.inj_succ in Hlt.
    apply Forall_cons in Hnn as [Hobj Hnn].
    cbn [app] in Hnd. apply NoDup_cons in Hnd as [Hfresh Hnd].
    cbn [map run].
    rewrite (bind_val _ _ _ _ _
               (push_plain_below d spin obj w l Hb Hd Hobj ltac:(lia))).
    destruct (IH (counted (linked obj (with_call obj w))) (obj :: l))
      as (w' & Hrun & Hb' & Hr' & Hd' & Hlog' & Hc').
    + apply linked_buffered; [exact Hb | exact Hobj |].
      intros Hin. apply Hfresh. apply elem_of_app. now right.
    + exact Hd.
    + apply NoDup_app in Hnd as (H1 & Hdisj & H2).
      apply NoDup_app. split_and!; [exact H1 | | ].
      * intros x Hx Hin. apply elem_of_cons in Hin as [-> | Hin].
        -- apply Hfresh. apply elem_of_app. now left.
        -- now apply (Hdisj x).
      * apply NoDup_cons. split; [| exact H2].
        intros Hin. apply Hfresh. apply elem_of_app. now right.
    + exact Hnn.
    + cbn. lia.
    + exists w'. split; [exact Hrun |].
      cbn in Hr', Hlog', Hc'. cbn [rev length].
      rewrite <- app_assoc. cbn [app].
      split_and!; try assumption.
      * rewrite Nat2Z.inj_succ. lia.
      * now rewrite Hc', <- app_assoc.
Qed.

(** After plain pushes the count is the length of the list. *)
Lemma run_plain_accurate d spin objs : forall w l,
  ready w l objs -> rcount_ (priv w) = Z.of_nat (length l) ->
  exists w' l',
    run d (S spin) (map plain objs) w = (Val tt, w') /\
    buffered w' l' /\ rcount_ (priv w') = Z.of_nat (length l').
Proof.
  induction objs as [| obj objs IH];
    intros w l (Hb & Hd & Hnd & Hnn & Hr0 & Hr) Hacc.
  - exists w, l. now split_and!.
  - cbn [length] in Hr. rewrite Nat2Z.inj_succ in Hr.
    apply Forall_cons in Hnn as [Hobj Hnn].
    cbn [app] in Hnd. apply NoDup_cons in Hnd as [Hfresh Hnd].
    apply not_elem_of_app in Hfresh as [Hfresh_objs Hfresh].
    apply NoDup_app in Hnd as (Hndo & Ho_l & Hndl).
    cbn [map run].
    destruct (Z.lt_ge_cases (rcount_ (priv w) + 1) kThreshold) as [Hlt | Hge].
    + rewrite (bind_val _ _ _ _ _
                 (push_plain_below d spin obj w l Hb Hd Hobj Hlt)).
      apply (IH _ (obj :: l)).
      * unfold ready. split_and!.
        -- now apply linked_buffered.
        -- exact Hd.
        -- apply NoDup_app. split_and!; [exact Hndo | |].
           ++ intros x Hx Hin. apply elem_of_cons in Hin as [-> | Hin];
                [contradiction | now apply (Ho_l x)].
           ++ now apply NoDup_cons.
        -- exact Hnn.
        -- cbn. lia.
        -- cbn. lia.
      * cbn [length]. rewrite Nat2Z.inj_succ. cbn. lia.
    + rewrite (bind_val _ _ _ _ _
                 (push_plain_flush d spin obj w l Hb Hd Hobj Hfresh Hge
                    ltac:(lia))).
      apply (IH _ []).
      * unfold ready. split_and!.
        -- repeat split; cbn; constructor.
        -- exact Hd.
        -- now rewrite app_nil_r.
        -- exact Hnn.
        -- cbn. lia.
        -- cbn. lia.
      * reflexivity.
Qed.

(** *** Pushes on a torn-down buffer *)

Lemma bypassed_nil w : bypassed [] w = w.
Proof. destruct w. unfold bypassed. cbn. now rewrite !app_nil_r. Qed.

Lemma bypassed_app o1 o2 w : bypassed o2 (bypassed o1 w) = bypassed (o1 ++ o2) w.
Proof. unfold bypassed. cbn. now rewrite map_app, !app_assoc. Qed.

Lemma run_bypasses d spin cs :
  Forall (fun c => bypasses (push d spin c) (objs_of c)) cs ->
  bypasses (run d spin cs) (objs_of_all cs).
Proof.
  induction 1 as [| c cs Hc Hcs IH]; intros w Hd Hnn; cbn [run objs_of_all] in *.
  - unfold ret. now rewrite bypassed_nil.
  - apply Forall_app in Hnn as [Hnn1 Hnn2].
    rewrite (bind_val _ _ _ _ _ (Hc w Hd Hnn1)).
    rewrite (IH (bypassed (objs_of c) w) Hd Hnn2). now rewrite bypassed_app.
Qed.

Lemma push_bypasses d spin c : bypasses (push d spin c) (objs_of c).
Proof.
  induction c as [obj reentrant IH] using retire_ind.
  intros w Hd Hnn. rewrite push_unfold, objs_of_unfold in *.
  apply Forall_cons in Hnn as [Hobj Hnn].
  rewrite (push_body_torn_down d spin obj _ w Hd Hobj).
  rewrite (run_bypasses d spin reentrant IH
             (with_batch (single_obj_list obj, [obj]) (with_call obj w)) Hd Hnn).
  unfold bypassed. cbn. now rewrite <- !app_assoc.
Qed.

(** After teardown began every push, reentrant or not, leaves the buffer
    alone and hands its object to the domain as a batch of one. *)
Lemma run_torn_down d spin cs w :
  in_dtor_ (priv w) = true ->
  Forall (fun o => o <> nullptr) (objs_of_all cs) ->
  run d spin cs w = (Val tt, bypassed (objs_of_all cs) w).
Proof.
  apply run_bypasses, Forall_forall. intros c _. apply push_bypasses.
Qed.

(** *** Which pushes a script comes to *)

Lemma called_all_torn cs :
  Forall (fun c => forall r, called true c r = (objs_of c, r)) cs ->
  forall r, called_all true cs r = (objs_of_all cs, r).
Proof.
  induction 1 as [| c cs Hc Hcs IH]; intros r; cbn [called_all objs_of_all].
  - reflexivity.
  - now rewrite Hc, IH.
Qed.

Lemma called_torn c r : called true c r = (objs_of c, r).
Proof.
  revert r. induction c as [obj reentrant IH] using retire_ind. intros r.
  rewrite called_unfold, objs_of_unfold. cbn.
  now rewrite (called_all_torn reentrant IH).
Qed.

Lemma called_all_torn_eq cs r : called_all true cs r = (objs_of_all cs, r).
Proof.
  apply called_all_torn, Forall_forall. intros c _ r'. apply called_torn.
Qed.

Lemma called_top torn c r : obj_of c ∈ fst (called torn c r).
Proof.
  destruct c as [obj reentrant]. rewrite called_unfold. cbn [obj_of].
  destruct torn; [cbn; apply elem_of_cons; now left |].
  destruct (r + 1 <? kThreshold); cbn; apply elem_of_cons; now left.
Qed.

Lemma called_all_top torn cs : forall r,
  Forall (fun c => obj_of c ∈ fst (called_all torn cs r)) cs.
Proof.
  induction cs as [| c cs IH]; intros r; [constructor |].
  cbn [called_all fst]. apply Forall_cons. split.
  - apply elem_of_app. left. apply called_top.
  - eapply Forall_impl; [apply (IH (snd (called torn c r))) |].
    intros c' Hc'. apply elem_of_app. now right.
Qed.

Lemma called_all_plain torn objs : forall r,
  fst (called_all torn (map plain objs) r) = objs.
Proof.
  induction objs as [| o objs IH]; intros r; [reflexivity |].
  cbn [map called_all fst]. rewrite IH. unfold plain. rewrite called_unfold.
  destruct torn; [reflexivity |].
  destruct (r + 1 <? kThreshold); reflexivity.
Qed.

Lemma called_sublist torn c : forall r, sublist (fst (called torn c r)) (objs_of c).
Proof.
  induction c as [obj reentrant IH] using retire_ind. intros r.
  assert (forall r', sublist (fst (called_all torn reentrant r'))
                       (objs_of_all reentrant)) as Hall.
  { induction IH as [| c cs Hc Hcs IHcs]; intros r';
      cbn [called_all objs_of_all fst]; [constructor |].
    apply sublist_app; [apply Hc | apply IHcs]. }
  rewrite called_unfold, objs_of_unfold.
  destruct torn; [cbn; apply sublist_skip, Hall |].
  destruct (r + 1 <? kThreshold); cbn.
  - apply sublist_skip, sublist_nil_l.
  - apply sublist_skip, Hall.
Qed.

Lemma called_all_sublist torn cs : forall r,
  sublist (fst (called_all torn cs r)) (objs_of_all cs).
Proof.
  induction cs as [| c cs IH]; intros r; cbn [called_all objs_of_all fst];
    [constructor |].
  apply sublist_app; [apply called_sublist | apply IH].
Qed.

Lemma flushed_singles objs :
  flushed (map (fun o => (single_obj_list o, [o])) objs) = objs.
Proof.
  unfold flushed. induction objs as [| o objs IH]; cbn; [reflexivity |].
  now f_equal.
Qed.

(** A script of pushes of fresh objects, on a buffer torn down or not:
    it runs to its end, the buffer stays in order, and the buffered
    nodes with the nodes of the batches are the nodes buffered before
    and the objects of the pushes the script comes to. *)
Lemma script_outcome d spin cs w l :
  buffered w l -> 0 <= rcount_ (priv w) ->
  NoDup (objs_of_all cs ++ l) ->
  Forall (fun o => o <> nullptr) (objs_of_all cs) ->
  rcount_ (priv w) + Z.of_nat (length (objs_of_all cs)) <= INT_MAX ->
  exists w' l' batches,
    run d (S spin) cs w = (Val tt, w') /\
    buffered w' l' /\
    in_dtor_ (priv w') = in_dtor_ (priv w) /\
    domain_log w' = domain_log w ++ batches /\
    Permutation (l' ++ flushed batches)
      (fst (called_all (in_dtor_ (priv w)) cs (rcount_ (priv w))) ++ l) /\
    rcount_ (priv w') =
      snd (called_all (in_dtor_ (priv w)) cs (rcount_ (priv w))).
Proof.
  intros Hb Hr0 Hnd Hnn Hr.
  destruct (in_dtor_ (priv w)) eqn:Hd.
  - exists (bypassed (objs_of_all cs) w), l,
      (map (fun o => (single_obj_list o, [o])) (objs_of_all cs)).
    rewrite called_all_torn_eq. cbn [fst snd].
    split_and!; try reflexivity.
    + now apply run_torn_down.
    + exact Hb.
    + exact Hd.
    + rewrite flushed_singles. apply Permutation_app_comm.
  - destruct (safe_script d spin cs w l ltac:(unfold ready; now split_and!))
      as (w' & l' & batches & Hrun & S & Hcnt).
    destruct S as (Hb' & Hd' & _ & _ & Hlog & _ & Hperm).
    exists w', l', batches. now split_and!.
Qed.

Lemma prefix_fresh (o1 o2 l : list ptr) r :
  NoDup ((o1 ++ o2) ++ l) -> Forall (fun o => o <> nullptr) (o1 ++ o2) ->
  r + Z.of_nat (length (o1 ++ o2)) <= INT_MAX ->
  NoDup (o1 ++ l) /\ Forall (fun o => o <> nullptr) o1 /\
  r + Z.of_nat (length o1) <= INT_MAX.
Proof.
  intros Hnd Hnn Hr. rewrite length_app, Nat2Z.inj_add in Hr.
  apply Forall_app in Hnn as [Hnn _].
  split_and!; [| exact Hnn | lia].
  rewrite <- app_assoc in Hnd.
  apply NoDup_app in Hnd as (H1 & Hdisj & H23).
  apply NoDup_app in H23 as (_ & _ & H3).
  apply NoDup_app. split_and!; try assumption.
  intros x Hx Hl. apply (Hdisj x Hx). apply elem_of_app. now right.
Qed.

(** C1, as the code has it. From a buffer in order, torn down or not,
    calls of [push] with non-null, pairwise distinct objects that are
    not buffered already run to their end, pushes that come back from
    the domain during a flush included. After every call of the script
    (after its first [k], for every [k]) the list from [head_] is in
    order and [head_] is null exactly when [tail_] is. The nodes of the
    list together with those of the batches handed to the domain are,
    each once, the nodes buffered at the start and the objects of the
    pushes the script comes to ([called_all], read off the script and
    the starting count alone): among them every object of a call of the
    script itself and every node buffered at the start. When nothing
    comes back into any call, these are all the objects of the script,
    and if [rcount_] was the length of the list at the start, it is the
    length of the list after every call. *)
Theorem push_keeps_list (d : bool) (spin k : nat) (cs : list retire)
    (objs : list ptr) (w : world) (l : list ptr) :
  buffered w l ->
  0 <= rcount_ (priv w) ->
  NoDup (objs_of_all cs ++ l) ->
  Forall (fun o => o <> nullptr) (objs_of_all cs) ->
  rcount_ (priv w) + Z.of_nat (length (objs_of_all cs)) <= INT_MAX ->
  NoDup (objs ++ l) ->
  Forall (fun o => o <> nullptr) objs ->
  rcount_ (priv w) + Z.of_nat (length objs) <= INT_MAX ->
  (exists w' l' batches,
     run d (S spin) (take k cs) w = (Val tt, w') /\
     buffered w' l' /\
     (head_ (priv w') = nullptr <-> tail_ (priv w') = nullptr) /\
     domain_log w' = domain_log w ++ batches /\
     Permutation (l' ++ flushed batches)
       (fst (called_all (in_dtor_ (priv w)) (take k cs) (rcount_ (priv w)))
        ++ l) /\
     NoDup (l' ++ flushed batches) /\
     Forall (fun c => obj_of c ∈ l' ++ flushed batches) (take k cs) /\
     (forall x, x ∈ l -> x ∈ l' ++ flushed batches) /\
     (forall x, x ∈ l' ++ flushed batches -> x ∈ objs_of_all cs ++ l)) /\
  (exists w' l' batches,
     run d (S spin) (map plain (take k objs)) w = (Val tt, w') /\
     buffered w' l' /\
     (head_ (priv w') = nullptr <-> tail_ (priv w') = nullptr) /\
     domain_log w' = domain_log w ++ batches /\
     Permutation (l' ++ flushed batches) (take k objs ++ l) /\
     NoDup (l' ++ flushed batches) /\
     (rcount_ (priv w) = Z.of_nat (length l) ->
      rcount_ (priv w') = Z.of_nat (length l'))).
Proof.
  intros Hb Hr0 Hnd Hnn Hr Hnd' Hnn' Hr'. split.
  - rewrite <- (take_drop k cs), objs_of_all_app in Hnd, Hnn, Hr.
    destruct (prefix_fresh _ _ _ _ Hnd Hnn Hr) as (Hndk & Hnnk & Hrk).
    destruct (script_outcome d spin (take k cs) w l Hb Hr0 Hndk Hnnk Hrk)
      as (w' & l' & batches & Hrun & Hb' & _ & Hlog & Hperm & _).
    pose proof (called_all_sublist (in_dtor_ (priv w)) (take k cs)
                  (rcount_ (priv w))) as Hsub.
    exists w', l', batches.
    split_and!; try assumption.
    + exact (buffered_head_iff_tail w' l' Hb').
    + rewrite Hperm.
      apply NoDup_app in Hndk as (H1 & Hdisj & H2).
      apply NoDup_app. split_and!; [| | exact H2].
      * exact (sublist_NoDup _ _ H1 Hsub).
      * intros x Hx. apply Hdisj. exact (elem_of_sublist _ _ x Hx Hsub).
    + eapply Forall_impl; [apply called_all_top |].
      intros c Hc. cbn beta in Hc. rewrite Hperm.
      apply elem_of_app. left. exact Hc.
    + intros x Hx. rewrite Hperm. apply elem_of_app. now right.
    + intros x Hx. rewrite Hperm in Hx.
      rewrite <- (take_drop k cs) at 1. rewrite objs_of_all_app.
      apply elem_of_app in Hx as [Hx | Hx].
      * apply elem_of_app. left. apply elem_of_app. left.
        exact (elem_of_sublist _ _ x Hx Hsub).
      * apply elem_of_app. now right.
  - rewrite <- (take_drop k objs) in Hnd', Hnn', Hr'.
    destruct (prefix_fresh _ _ _ _ Hnd' Hnn' Hr') as (Hndk & Hnnk & Hrk).
    destruct (script_outcome d spin (map plain (take k objs)) w l Hb Hr0
                ltac:(now rewrite objs_of_all_plain)
                ltac:(now rewrite objs_of_all_plain)
                ltac:(now rewrite objs_of_all_plain))
      as (w' & l' & batches & Hrun & Hb' & Hd' & Hlog & Hperm & _).
    rewrite called_all_plain in Hperm.
    exists w', l', batches.
    split_and!; try assumption.
    + exact (buffered_head_iff_tail w' l' Hb').
    + rewrite Hperm. exact Hndk.
    + intros Hacc. destruct (in_dtor_ (priv w)) eqn:Hd.
      * rewrite run_torn_down in Hrun
          by (try assumption; now rewrite objs_of_all_plain).
        injection Hrun as <-.
        destruct Hb as (Hs & _). destruct Hb' as (Hs' & _).
        cbn in Hs'. now rewrite <- (lseg_functional _ _ _ Hs _ Hs').
      * destruct (run_plain_accurate d spin (take k objs) w l
                    ltac:(unfold ready; now split_and!) Hacc)
          as (w2 & l2 & Hrun2 & Hb2 & Hacc2).
        rewrite Hrun in Hrun2. injection Hrun2 as <-.
        destruct Hb2 as (Hs2 & _). destruct Hb' as (Hs' & _).
        now rewrite (lseg_functional _ _ _ Hs' _ Hs2).
Qed.

Lemma push_keeps_list_witness :
  exists w' l' batches,
    run true 1 (take 20 nested_script) (fresh_world ∅) = (Val tt, w') /\
    buffered w' l' /\
    (head_ (priv w') = nullptr <-> tail_ (priv w') = nullptr) /\
    domain_log w' = domain_log (fresh_world ∅) ++ batches /\
    Permutation (l' ++ flushed batches) (map Z.of_nat (seq 1 22) ++ []) /\
    NoDup (l' ++ flushed batches) /\
    Forall (fun c => obj_of c ∈ l' ++ flushed batches) (take 20 nested_script) /\
    (forall x, x ∈ [] -> x ∈ l' ++ flushed batches) /\
    (forall x, x ∈ l' ++ flushed batches ->
               x ∈ objs_of_all nested_script ++ []).
Proof.
  refine (proj1 (push_keeps_list true 0 20 nested_script
                   (map Z.of_nat (seq 1 25)) (fresh_world ∅) []
                   (buffered_fresh ∅) _ _ _ _ _ _ _)).
  - cbn. lia.
  - apply (bool_decide_unpack _). vm_compute. exact I.
  - apply (bool_decide_unpack _). vm_compute. exact I.
  - vm_compute. discriminate.
  - apply (bool_decide_unpack _). vm_compute. exact I.
  - apply (bool_decide_unpack _). vm_compute. exact I.
  - vm_compute. discriminate.
Defined.

(** C1 as stated fails where it speaks of [rcount_] under reentrant
    pushes. The twentieth push flushes; while the domain takes the batch
    two pushes come back; the first finds [rcount_] still at 20, goes to
    21 and flushes again, the second is buffered with [rcount_] at 1;
    back in the twentieth push [rcount_] is set to 0. One node is then
    reachable from [head_] and [rcount_] is 0, with no [collect] under
    way. *)
Lemma reentrant_count_counterexample :
  fst (run true 1 nested_script (fresh_world ∅)) = Val tt /\
  buffered (snd (run true 1 nested_script (fresh_world ∅))) [22] /\
  rcount_ (priv (snd (run true 1 nested_script (fresh_world ∅)))) = 0 /\
  rcount_ (priv (snd (run true 1 nested_script (fresh_world ∅))))
    <> Z.of_nat (length [22]).
Proof.
  assert (head_ (priv (snd (run true 1 nested_script (fresh_world ∅)))) = 22)
    as Eh by (vm_compute; reflexivity).
  assert (tail_ (priv (snd (run true 1 nested_script (fresh_world ∅)))) = 22)
    as Et by (vm_compute; reflexivity).
  assert (next_ (snd (run true 1 nested_script (fresh_world ∅))) !! 22
          = Some nullptr) as En by (vm_compute; reflexivity).
  assert (rcount_ (priv (snd (run true 1 nested_script (fresh_world ∅)))) = 0)
    as Er by (vm_compute; reflexivity).
  split; [vm_compute; reflexivity |].
  split; [| split; [exact Er | rewrite Er; discriminate]].
  unfold buffered. rewrite Eh, Et. split_and!.
  - apply (lseg_cons _ 22 nullptr); [discriminate | exact En | constructor].
  - reflexivity.
  - apply NoDup_singleton.
Qed.

(** *** The destructor *)

Lemma priv_destructor_run d spin reentrant w l :
  buffered w l ->
  Forall (fun o => o <> nullptr) (objs_of_all reentrant) ->
  destructor d spin reentrant w =
    (Val tt,
     match l with
     | [] => with_priv (with_in_dtor true) w
     | _ :: _ =>
         with_priv (with_rcount 0)
           (bypassed (objs_of_all reentrant)
              (handed_over l (with_priv (with_in_dtor true) w)))
     end).
Proof.
  intros Hb Hnn. pose proof (buffered_null w l Hb) as [Hh Ht].
  unfold destructor. rewrite bind_modify.
  rewrite (bind_val _ _ _ _ _
             (eq_refl : empty (with_priv (with_in_dtor true) w) =
                        (Val (head_ (priv w) =? nullptr), _))).
  destruct l as [| x l'].
  - rewrite (proj2 Hh eq_refl). reflexivity.
  - destruct (Z.eqb_spec (head_ (priv w)) nullptr) as [E | _];
      [now apply Hh in E |].
    cbn [negb].
    rewrite (flush_run d _ (with_priv (with_in_dtor true) w) (x :: l') Hb
               ltac:(discriminate)).
    now rewrite (bind_val _ _ _ _ _
                   (run_torn_down d spin reentrant
                      (handed_over (x :: l') (with_priv (with_in_dtor true) w))
                      eq_refl Hnn)).
Qed.

(** C3: [~hazptr_priv] sets [in_dtor_] and then hands the [m] buffered
    nodes [l] to the domain in one batch, the list from [head_] to
    [tail_], leaving the buffer empty; with nothing buffered ([m] = 0) it
    has nothing to hand over and makes no call. Pushes that come back
    from the domain during that flush, and every push after teardown,
    leave [head_], [tail_], [rcount_] and the links alone and go to the
    domain at once, each as a batch of its one object. *)
Theorem teardown_spec (d : bool) (spin : nat) (w : world) (l : list ptr)
    (reentrant later : list retire) :
  buffered w l ->
  Forall (fun o => o <> nullptr) (objs_of_all reentrant) ->
  Forall (fun o => o <> nullptr) (objs_of_all later) ->
  exists w' w'',
    destructor d spin reentrant w = (Val tt, w') /\
    in_dtor_ (priv w') = true /\
    head_ (priv w') = nullptr /\ tail_ (priv w') = nullptr /\
    next_ w' = next_ w /\
    domain_log w' =
      domain_log w ++
      match l with
      | [] => []
      | _ :: _ =>
          (Build_hazptr_obj_list (head_ (priv w)) (tail_ (priv w))
             (rcount_ (priv w)), l)
          :: map (fun o => (single_obj_list o, [o])) (objs_of_all reentrant)
      end /\
    run d spin later w' = (Val tt, w'') /\
    priv w'' = priv w' /\ next_ w'' = next_ w' /\
    domain_log w'' =
      domain_log w' ++
      map (fun o => (single_obj_list o, [o])) (objs_of_all later).
Proof.
  intros Hb Hnn Hnn'. pose proof (buffered_null w l Hb) as [Hh Ht].
  pose proof (priv_destructor_run d spin reentrant w l Hb Hnn) as Hrun.
  destruct l as [| x l'].
  - exists (with_priv (with_in_dtor true) w),
      (bypassed (objs_of_all later) (with_priv (with_in_dtor true) w)).
    split; [exact Hrun |]. cbn.
    rewrite (proj2 Hh eq_refl), (proj2 Ht eq_refl), app_nil_r.
    split_and!; try reflexivity.
    now apply run_torn_down.
  - eexists _, (bypassed (objs_of_all later) _).
    split; [exact Hrun |].
    split_and!;
      [reflexivity | reflexivity | reflexivity | reflexivity | |
       | reflexivity | reflexivity | reflexivity].
    + cbn. now rewrite <- app_assoc.
    + apply run_torn_down; [reflexivity | exact Hnn'].
Qed.

Lemma teardown_spec_witness :
  exists w' w'',
    destructor true 1 [plain 8] (counted (linked 7 (fresh_world ∅)))
      = (Val tt, w') /\
    in_dtor_ (priv w') = true /\
    head_ (priv w') = nullptr /\ tail_ (priv w') = nullptr /\
    next_ w' = next_ (counted (linked 7 (fresh_world ∅))) /\
    domain_log w' =
      [(Build_hazptr_obj_list 7 7 1, [7]); (single_obj_list 8, [8])] /\
    run true 1 [plain 9] w' = (Val tt, w'') /\
    priv w'' = priv w' /\ next_ w'' = next_ w' /\
    domain_log w'' = domain_log w' ++ [(single_obj_list 9, [9])].
Proof.
  refine (teardown_spec true 1 (counted (linked 7 (fresh_world ∅))) [7]
            [plain 8] [plain 9] _ _ _).
  - apply (linked_buffered 7 (fresh_world ∅) []).
    + apply buffered_fresh.
    + discriminate.
    + apply not_elem_of_nil.
  - apply (bool_decide_unpack _). vm_compute. exact I.
  - apply (bool_decide_unpack _). vm_compute. exact I.
Defined.

(** C4: [push_all_to_domain], with nothing coming back from the domain.
    On an empty list [collect] finds [head_] null and returns nothing,
    no call is made to the domain and the state, [rcount_] included, is
    the one before. On a list of nodes [l] it takes [head_] and then
    [tail_], leaving null in both, hands the domain one batch made of
    that head, that tail and [rcount_], whose nodes are [l], and then
    sets [rcount_] to 0. *)
Theorem push_all_to_domain_spec (d : bool) (w : world) (l : list ptr) :
  buffered w l ->
  (l = [] ->
     collect d nullptr nullptr w = (Val (nullptr, nullptr), w) /\
     push_all_to_domain d (ret tt) w = (Val tt, w)) /\
  (l <> [] ->
     collect d nullptr nullptr w =
       (Val (head_ (priv w), tail_ (priv w)), detached w) /\
     head_ (priv (detached w)) = nullptr /\
     tail_ (priv (detached w)) = nullptr /\
     exists w',
       push_all_to_domain d (ret tt) w = (Val tt, w') /\
       head_ (priv w') = nullptr /\ tail_ (priv w') = nullptr /\
       rcount_ (priv w') = 0 /\
       in_dtor_ (priv w') = in_dtor_ (priv w) /\
       next_ w' = next_ w /\
       retire_calls w' = retire_calls w /\
       domain_log w' =
         domain_log w ++
         [(Build_hazptr_obj_list (head_ (priv w)) (tail_ (priv w))
             (rcount_ (priv w)), l)]).
Proof.
  intros Hb. pose proof (buffered_null w l Hb) as [Hh Ht]. split.
  - intros El. apply Hh in El.
    split; [now apply collect_empty | now apply flush_empty].
  - intros Hne. split; [now apply (collect_run d w l) |].
    split; [reflexivity | split; [reflexivity |]].
    eexists. split.
    + rewrite (flush_run d (ret tt) w l Hb Hne). reflexivity.
    + cbn. now split_and!.
Qed.

Lemma push_all_to_domain_spec_witness :
  buffered (counted (linked 7 (fresh_world ∅))) [7] /\
  exists w',
    push_all_to_domain true (ret tt) (counted (linked 7 (fresh_world ∅)))
      = (Val tt, w') /\
    head_ (priv w') = nullptr /\ tail_ (priv w') = nullptr /\
    rcount_ (priv w') = 0 /\
    domain_log w' = [(Build_hazptr_obj_list 7 7 1, [7])].
Proof.
  assert (buffered (counted (linked 7 (fresh_world ∅))) [7]) as Hb.
  { apply (linked_buffered 7 (fresh_world ∅) []).
    - apply buffered_fresh.
    - discriminate.
    - apply not_elem_of_nil. }
  split; [exact Hb |].
  destruct (proj2 (push_all_to_domain_spec true _ [7] Hb) ltac:(discriminate))
    as (_ & _ & _ & w' & Hrun & Hh & Ht & Hr & _ & _ & _ & Hlog).
  exists w'. now split_and!.
Defined.

(** *** The threshold *)

Lemma split_last (objs : list ptr) n :
  length objs = S n -> exists o, objs = take n objs ++ [o].
Proof.
  intros Hlen. pose proof (take_drop n objs) as Htd.
  assert (length (drop n objs) = 1%nat) as H1 by (rewrite length_drop; lia).
  destruct (drop n objs) as [| o [| ? ?]]; try discriminate.
  now exists o.
Qed.

(** Twenty plain pushes into an empty buffer: the twentieth flushes. *)
Lemma run_twenty d spin objs w :
  buffered w [] -> in_dtor_ (priv w) = false -> rcount_ (priv w) = 0 ->
  length objs = 20%nat -> NoDup objs -> Forall (fun o => o <> nullptr) objs ->
  exists w19 w20 b,
    run d (S spin) (map plain (take 19 objs)) w = (Val tt, w19) /\
    domain_log w19 = domain_log w /\ rcount_ (priv w19) = 19 /\
    buffered w19 (rev (take 19 objs)) /\
    run d (S spin) (map plain objs) w = (Val tt, w20) /\
    domain_log w20 = domain_log w ++ [(b, rev objs)] /\
    l_count b = 20 /\ l_head b = hd nullptr (rev objs) /\
    l_tail b = hd nullptr objs /\
    rcount_ (priv w20) = 0 /\ in_dtor_ (priv w20) = false /\
    buffered w20 [].
Proof.
  intros Hb Hd Hr Hlen Hnd Hnn.
  destruct (split_last objs 19 Hlen) as [o20 Hsplit].
  remember (take 19 objs) as objs19 eqn:E19.
  assert (length objs19 = 19%nat) as Hlen19
    by (rewrite E19, length_take; lia).
  clear E19 Hlen. subst objs.
  apply NoDup_app in Hnd as (Hnd19 & Hdisj & _).
  apply Forall_app in Hnn as [Hnn19 Hnn20].
  apply Forall_cons in Hnn20 as [Ho20 _].
  destruct (run_plain_below d spin objs19 w [] Hb Hd
              ltac:(now rewrite app_nil_r) Hnn19
              ltac:(rewrite Hr, Hlen19; unfold kThreshold; lia))
    as (w19 & Hrun19 & Hb19 & Hr19 & Hd19 & Hlog19 & Hc19).
  rewrite app_nil_r in Hb19. rewrite Hr, Hlen19 in Hr19.
  assert (o20 ∉ rev objs19) as Hfresh.
  { intros Hin. apply list_elem_of_In in Hin. rewrite <- in_rev in Hin.
    apply list_elem_of_In in Hin.
    apply (Hdisj o20 Hin). apply list_elem_of_singleton. reflexivity. }
  pose proof (push_plain_flush d spin o20 w19 (rev objs19) Hb19 Hd19 Ho20
                Hfresh ltac:(rewrite Hr19; unfold kThreshold; lia)
                ltac:(rewrite Hr19; unfold INT_MAX; lia)) as Hpush.
  eexists w19, _, _. split_and!.
  - exact Hrun19.
  - exact Hlog19.
  - exact Hr19.
  - exact Hb19.
  - rewrite map_app.
    rewrite (run_app _ _ _ _ _ _ Hrun19). cbn [map run].
    rewrite (bind_val _ _ _ _ _ Hpush). reflexivity.
  - cbn. rewrite Hlog19, rev_app_distr. reflexivity.
  - cbn. rewrite Hr19. reflexivity.
  - cbn. rewrite rev_app_distr. reflexivity.
  - cbn. destruct Hb19 as (_ & Ht & _).
    rewrite Ht.
    destruct objs19 as [| o1 objs19']; [discriminate |].
    cbn [rev app hd]. rewrite last_snoc. cbn.
    destruct (Z.eqb_spec o1 nullptr) as [E | _]; [| reflexivity].
    apply Forall_cons in Hnn19 as [Hn _]. contradiction.
  - reflexivity.
  - exact Hd19.
  - repeat split; cbn; constructor.
Qed.

(** C2: into an empty buffer that is not torn down, with [rcount_] at
    0, the first nineteen plain pushes make no call to the domain; the
    twentieth makes exactly one, a batch of count 20 holding the twenty
    nodes, and leaves the buffer empty with [rcount_] at 0. Five more
    pushes make no further call: after 25 pushes the domain has had that
    one batch of 20, five nodes are buffered and [rcount_] is 5; a
    teardown then delivers those five as a second batch. *)
Theorem threshold_flush (d : bool) (spin : nat) (w : world)
    (objs rest : list ptr) :
  buffered w [] -> in_dtor_ (priv w) = false -> rcount_ (priv w) = 0 ->
  length objs = 20%nat -> length rest = 5%nat ->
  NoDup (objs ++ rest) -> Forall (fun o => o <> nullptr) (objs ++ rest) ->
  exists w19 w20 w25 w' b b',
    run d (S spin) (map plain (take 19 objs)) w = (Val tt, w19) /\
    domain_log w19 = domain_log w /\
    rcount_ (priv w19) = 19 /\
    run d (S spin) (map plain objs) w = (Val tt, w20) /\
    domain_log w20 = domain_log w ++ [(b, rev objs)] /\
    l_count b = 20 /\ length (rev objs) = 20%nat /\
    rcount_ (priv w20) = 0 /\ buffered w20 [] /\
    run d (S spin) (map plain (objs ++ rest)) w = (Val tt, w25) /\
    domain_log w25 = domain_log w ++ [(b, rev objs)] /\
    buffered w25 (rev rest) /\ rcount_ (priv w25) = 5 /\
    destructor d (S spin) [] w25 = (Val tt, w') /\
    domain_log w' = domain_log w ++ [(b, rev objs); (b', rev rest)] /\
    l_count b' = 5.
Proof.
  intros Hb Hd Hr Hlen Hlen' Hnd Hnn.
  apply NoDup_app in Hnd as (Hnd20 & _ & Hnd5).
  apply Forall_app in Hnn as [Hnn20 Hnn5].
  destruct (run_twenty d spin objs w Hb Hd Hr Hlen Hnd20 Hnn20)
    as (w19 & w20 & b & Hrun19 & Hlog19 & Hr19 & _ & Hrun20 & Hlog20 & Hcnt
        & _ & _ & Hr20 & Hd20 & Hb20).
  destruct (run_plain_below d spin rest w20 [] Hb20 Hd20
              ltac:(now rewrite app_nil_r) Hnn5
              ltac:(rewrite Hr20, Hlen'; unfold kThreshold; lia))
    as (w25 & Hrun25 & Hb25 & Hr25 & Hd25 & Hlog25 & _).
  rewrite app_nil_r in Hb25. rewrite Hr20, Hlen' in Hr25.
  assert (rev rest <> []) as Hne.
  { intros E. apply (f_equal (@length ptr)) in E.
    rewrite length_rev, Hlen' in E. discriminate. }
  pose proof (priv_destructor_run d (S spin) [] w25 (rev rest) Hb25
                ltac:(constructor)) as Hdtor.
  destruct (rev rest) as [| x l'] eqn:Erev; [contradiction |].
  eexists w19, w20, w25, _, b, _. split_and!.
  - exact Hrun19.
  - exact Hlog19.
  - exact Hr19.
  - exact Hrun20.
  - exact Hlog20.
  - exact Hcnt.
  - now rewrite length_rev.
  - exact Hr20.
  - exact Hb20.
  - rewrite map_app. now rewrite (run_app _ _ _ _ _ _ Hrun20).
  - now rewrite Hlog25.
  - exact Hb25.
  - exact Hr25.
  - exact Hdtor.
  - cbn. rewrite Hlog25, Hlog20, app_nil_r, <- app_assoc. reflexivity.
  - cbn. exact Hr25.
Qed.

Lemma threshold_flush_witness :
  exists w19 w20 w25 w' b b',
    run true 1 (map plain (take 19 (map Z.of_nat (seq 1 20)))) (fresh_world ∅)
      = (Val tt, w19) /\
    domain_log w19 = domain_log (fresh_world ∅) /\
    rcount_ (priv w19) = 19 /\
    run true 1 (map plain (map Z.of_nat (seq 1 20))) (fresh_world ∅)
      = (Val tt, w20) /\
    domain_log w20 =
      domain_log (fresh_world ∅) ++ [(b, rev (map Z.of_nat (seq 1 20)))] /\
    l_count b = 20 /\ length (rev (map Z.of_nat (seq 1 20))) = 20%nat /\
    rcount_ (priv w20) = 0 /\ buffered w20 [] /\
    run true 1
      (map plain (map Z.of_nat (seq 1 20) ++ map Z.of_nat (seq 21 5)))
      (fresh_world ∅) = (Val tt, w25) /\
    domain_log w25 =
      domain_log (fresh_world ∅) ++ [(b, rev (map Z.of_nat (seq 1 20)))] /\
    buffered w25 (rev (map Z.of_nat (seq 21 5))) /\
    rcount_ (priv w25) = 5 /\
    destructor true 1 [] w25 = (Val tt, w') /\
    domain_log w' =
      domain_log (fresh_world ∅) ++
      [(b, rev (map Z.of_nat (seq 1 20)));
       (b', rev (map Z.of_nat (seq 21 5)))] /\
    l_count b' = 5.
Proof.
  refine (threshold_flush true 0 (fresh_world ∅)
            (map Z.of_nat (seq 1 20)) (map Z.of_nat (seq 21 5))
            (buffered_fresh ∅) eq_refl eq_refl eq_refl eq_refl _ _).
  - apply (bool_decide_unpack _). vm_compute. exact I.
  - apply (bool_decide_unpack _). vm_compute. exact I.
Defined.

End RetiredBufferFacts.

(** * Further properties of the thread cache *)

Module GuardCacheMore.
Import GuardCache GuardCacheFacts.

Lemma fill_unfold d num :
  fill d num =
    (c <- count ;;
     DCHECK d (c + num <=? capacity) ;;;
     fill_should_not_be_called_frequently ;;;
     for_loop (Z.to_nat num) 0 fill_round).
Proof. reflexivity. Qed.

Lemma evict_unfold d num :
  evict d num =
    (c <- count ;;
     DCHECK d (num <=? c) ;;;
     for_loop (Z.to_nat num) 0 evict_round).
Proof. reflexivity. Qed.

(** The rate check looks at, and writes, the two fields that are there
    for it and nothing else. *)
Lemma rate_check_frame w :
  0 <= num_fills_ (tc w) <= max_fills ->
  exists r w',
    fill_should_not_be_called_frequently w = (r, w') /\
    entry_ (tc w') = entry_ (tc w) /\ count_ (tc w') = count_ (tc w) /\
    local_ (tc w') = local_ (tc w) /\
    steady_clock w' = steady_clock w /\ hprec_pool w' = hprec_pool w /\
    hprec_taken w' = hprec_taken w /\ domain_log w' = domain_log w /\
    ((r = Val tt /\ 1 <= num_fills_ (tc w') <= max_fills /\
      (num_fills_ (tc w) = max_fills ->
         period_ns < steady_clock w - first_fill_time_ (tc w))) \/
     (r = Abort CheckFailed /\ num_fills_ (tc w) = max_fills /\
      steady_clock w - first_fill_time_ (tc w) <= period_ns)).
Proof.
  intros Hn. unfold max_fills in Hn.
  destruct (Z.eq_dec (num_fills_ (tc w)) 0) as [E0 | N0].
  - eexists _, _. split; [exact (rate_check_first w E0) |].
    cbn. split_and!; try reflexivity. left.
    unfold max_fills. split_and!; try reflexivity; lia.
  - destruct (Z.eq_dec (num_fills_ (tc w)) max_fills) as [E10 | N10].
    + destruct (Z.le_gt_cases (steady_clock w - first_fill_time_ (tc w))
                  period_ns) as [Hle | Hgt].
      * eexists _, _. split; [exact (rate_check_fires w E10 Hle) |].
        cbn. split_and!; try reflexivity. now right.
      * eexists _, _. split; [exact (rate_check_passes w E10 ltac:(lia)) |].
        cbn. split_and!; try reflexivity. left.
        unfold max_fills. split_and!; try reflexivity; lia.
    + unfold max_fills in N10.
      eexists _, _.
      split; [exact (rate_check_below w ltac:(unfold max_fills; lia)) |].
      cbn. split_and!; try reflexivity. left.
      unfold max_fills. split_and!; try reflexivity; lia.
Qed.

Lemma fill_round_run i w :
  length (entry_ (tc w)) = 6%nat -> 0 <= count_ (tc w) < capacity ->
  fill_round i w =
    (Val tt,
     Build_world
       (Build_hazptr_tc
          (<[Z.to_nat (count_ (tc w)) := hprec_pool w (hprec_taken w)]>
             (entry_ (tc w)))
          (count_ (tc w) + 1) (local_ (tc w)) (num_fills_ (tc w))
          (first_fill_time_ (tc w)))
       (steady_clock w) (hprec_pool w) (S (hprec_taken w))
       (domain_log w ++ [HprecAcquire (hprec_pool w (hprec_taken w))])).
Proof.
  intros Hlen Hc. unfold capacity, kCapacity in Hc.
  unfold fill_round, hprec_acquire, count, set_count, entry_fill.
  unfold bind, gets, modify. cbn.
  rewrite u8_small by lia. rewrite Hlen. cbn.
  destruct (Nat.leb_spec (Z.to_nat (count_ (tc w))) 5); [reflexivity | lia].
Qed.

(** The loop of [fill]: [n] records acquired, stored in the [n] slots
    from [count_] on. *)
Lemma fill_loop_run n : forall i w,
  length (entry_ (tc w)) = 6%nat -> 0 <= count_ (tc w) ->
  count_ (tc w) + Z.of_nat n <= capacity ->
  exists w',
    for_loop n i fill_round w = (Val tt, w') /\
    length (entry_ (tc w')) = 6%nat /\
    count_ (tc w') = count_ (tc w) + Z.of_nat n /\
    local_ (tc w') = local_ (tc w) /\
    num_fills_ (tc w') = num_fills_ (tc w) /\
    first_fill_time_ (tc w') = first_fill_time_ (tc w) /\
    steady_clock w' = steady_clock w /\ hprec_pool w' = hprec_pool w /\
    hprec_taken w' = (hprec_taken w + n)%nat /\
    domain_log w' =
      domain_log w ++ map HprecAcquire (handed_out w (hprec_taken w) n) /\
    (forall j, (j < n)%nat ->
       entry_ (tc w') !! (Z.to_nat (count_ (tc w)) + j)%nat =
         Some (hprec_pool w (hprec_taken w + j)%nat)) /\
    (forall k, (k < Z.to_nat (count_ (tc w)))%nat ->
       entry_ (tc w') !! k = entry_ (tc w) !! k).
Proof.
  induction n as [| n IH]; intros i w Hlen Hc0 Hcap.
  - exists w. cbn. unfold ret, handed_out. cbn.
    rewrite Z.add_0_r, Nat.add_0_r, app_nil_r.
    split_and!; try reflexivity; try assumption. intros j Hj. lia.
  - rewrite Nat2Z.inj_succ in Hcap. cbn [for_loop].
    rewrite (bind_val _ _ _ _ _
               (fill_round_run i w Hlen ltac:(unfold capacity, kCapacity in *; lia))).
    match goal with |- context [for_loop n (i + 1) fill_round ?w1] =>
      destruct (IH (i + 1) w1) as (w' & Hrun & Hlen' & Hc' & Hl' & Hnf' & Hff'
                                    & Hclk' & Hpool' & Htk' & Hlog' & Hnew & Hold)
    end.
    + cbn. now rewrite length_insert.
    + cbn. lia.
    + cbn. lia.
    + cbn in Hc', Hl', Hnf', Hff', Hclk', Hpool', Htk', Hlog', Hnew, Hold.
      exists w'. split; [exact Hrun |].
      split_and!; try assumption.
      * rewrite Nat2Z.inj_succ. lia.
      * lia.
      * rewrite Hlog'. unfold handed_out. cbn [seq map].
        now rewrite <- app_assoc.
      * intros j Hj. destruct j as [| j].
        -- rewrite !Nat.add_0_r, Hold by lia.
           apply list_lookup_insert_eq. unfold capacity, kCapacity in *. lia.
        -- replace (Z.to_nat (count_ (tc w)) + S j)%nat
             with (Z.to_nat (count_ (tc w) + 1) + j)%nat by lia.
           rewrite Hnew by lia. f_equal. f_equal. lia.
      * intros k Hk. rewrite Hold by lia.
        apply list_lookup_insert_ne. lia.
Qed.

(** [fill] within the capacity and past the rate check. *)
Lemma fill_ok d num w :
  length (entry_ (tc w)) = 6%nat -> 0 <= count_ (tc w) -> 0 <= num ->
  count_ (tc w) + num <= capacity ->
  0 <= num_fills_ (tc w) <= max_fills ->
  (num_fills_ (tc w) = max_fills ->
     period_ns < steady_clock w - first_fill_time_ (tc w)) ->
  exists w',
    fill d num w = (Val tt, w') /\
    length (entry_ (tc w')) = 6%nat /\
    count_ (tc w') = count_ (tc w) + num /\
    1 <= num_fills_ (tc w') <= max_fills /\
    steady_clock w' = steady_clock w /\ hprec_pool w' = hprec_pool w /\
    hprec_taken w' = (hprec_taken w + Z.to_nat num)%nat /\
    domain_log w' =
      domain_log w ++
      map HprecAcquire (handed_out w (hprec_taken w) (Z.to_nat num)) /\
    (forall j, (j < Z.to_nat num)%nat ->
       entry_ (tc w') !! (Z.to_nat (count_ (tc w)) + j)%nat =
         Some (hprec_pool w (hprec_taken w + j)%nat)) /\
    (forall k, (k < Z.to_nat (count_ (tc w)))%nat ->
       entry_ (tc w') !! k = entry_ (tc w) !! k).
Proof.
  intros Hlen Hc0 Hn0 Hcap Hnf Htime.
  destruct (rate_check_frame w Hnf)
    as (r & w1 & Hrate & He1 & Hc1 & _ & Hclk1 & Hpool1 & Htk1 & Hlog1 & Hres).
  destruct Hres as [(-> & Hnf1 & _) | (_ & E10 & Hle)];
    [| specialize (Htime E10); lia].
  destruct (fill_loop_run (Z.to_nat num) 0 w1)
    as (w' & Hrun & Hlen' & Hc' & _ & Hnf' & _ & Hclk' & Hpool' & Htk'
        & Hlog' & Hnew & Hold).
  { now rewrite He1. }
  { now rewrite Hc1. }
  { rewrite Hc1. lia. }
  exists w'. split.
  - rewrite fill_unfold. unfold count. rewrite bind_gets.
    unfold DCHECK.
    destruct (Z.leb_spec (count_ (tc w) + num) capacity); [| lia].
    rewrite andb_false_r, bind_ret.
    now rewrite (bind_val _ _ _ _ _ Hrate).
  - unfold handed_out in *.
    rewrite Hc1, Htk1, Hlog1, Hpool1, He1 in *.
    split_and!; try assumption; try lia; congruence.
Qed.

Lemma evict_round_run i w hprec :
  0 < count_ (tc w) < 256 ->
  entry_ (tc w) !! Z.to_nat (count_ (tc w) - 1) = Some hprec ->
  hprec <> nullptr ->
  evict_round i w =
    (Val tt,
     log_event (HprecRelease hprec)
       (with_tc (with_count (count_ (tc w) - 1)) w)).
Proof.
  intros Hc E Hnn. unfold evict_round, count, set_count.
  rewrite bind_gets, bind_modify, bind_gets. cbn [with_tc with_count tc count_].
  rewrite u8_small by lia.
  now apply entry_evict_some.
Qed.

(** The loop of [evict]: the top [n] slots released, topmost first. *)
Lemma evict_loop_run n : forall i w,
  wf_tc (tc w) -> Z.of_nat n <= count_ (tc w) ->
  for_loop n i evict_round w =
    (Val tt,
     Build_world (with_count (count_ (tc w) - Z.of_nat n) (tc w))
       (steady_clock w) (hprec_pool w) (hprec_taken w)
       (domain_log w ++
        map HprecRelease
          (rev (take n (drop (Z.to_nat (count_ (tc w)) - n) (entry_ (tc w))))))).
Proof.
  induction n as [| n IH]; intros i w Hwf Hn.
  - cbn. unfold ret. rewrite app_nil_r, Z.sub_0_r.
    destruct w as [[e c l nf ff] clk pool tk lg]. reflexivity.
  - pose proof Hwf as (Hlen & Hc & Hnn). unfold capacity, kCapacity in Hc.
    rewrite Nat2Z.inj_succ in Hn.
    assert (Z.to_nat (count_ (tc w) - 1) < length (entry_ (tc w)))%nat as Hi
      by (rewrite Hlen; lia).
    destruct (lookup_lt_is_Some_2 _ _ Hi) as [hprec E].
    assert (hprec <> nullptr) as Hh
      by (apply (Hnn (Z.to_nat (count_ (tc w) - 1)) hprec); [lia | exact E]).
    cbn [for_loop].
    rewrite (bind_val _ _ _ _ _ (evict_round_run i w hprec ltac:(lia) E Hh)).
    rewrite IH.
    + cbn [log_event with_tc with_count tc count_ entry_ steady_clock
             hprec_pool hprec_taken domain_log local_ num_fills_
             first_fill_time_].
      f_equal. f_equal.
      * unfold with_count. cbn. f_equal. lia.
      * rewrite <- app_assoc. f_equal.
        replace (Z.to_nat (count_ (tc w) - 1) - n)%nat
          with (Z.to_nat (count_ (tc w)) - S n)%nat by lia.
        rewrite (take_S_r _ n hprec).
        -- rewrite rev_app_distr. reflexivity.
        -- rewrite lookup_drop. rewrite <- E. f_equal. lia.
    + unfold wf_tc. cbn [log_event with_tc with_count tc count_ entry_].
      split_and!; [exact Hlen | lia | unfold capacity, kCapacity; lia |].
      intros k p Hk. apply Hnn. lia.
    + cbn [log_event with_tc with_count tc count_]. lia.
Qed.

Lemma evict_ok d num w :
  wf_tc (tc w) -> 0 <= num <= count_ (tc w) ->
  evict d num w =
    (Val tt,
     Build_world (with_count (count_ (tc w) - num) (tc w))
       (steady_clock w) (hprec_pool w) (hprec_taken w)
       (domain_log w ++
        map HprecRelease
          (rev (take (Z.to_nat num)
                  (drop (Z.to_nat (count_ (tc w)) - Z.to_nat num)
                     (entry_ (tc w))))))).
Proof.
  intros Hwf Hn. rewrite evict_unfold. unfold count. rewrite bind_gets.
  unfold DCHECK. destruct (Z.leb_spec num (count_ (tc w))); [| lia].
  rewrite andb_false_r, bind_ret.
  rewrite (evict_loop_run (Z.to_nat num) 0 w Hwf ltac:(lia)).
  now rewrite Z2Nat.id by lia.
Qed.

Lemma slots_handed_out (e : list ptr) (pool : nat -> ptr) c tk n :
  (forall j, (j < n)%nat -> e !! (c + j)%nat = Some (pool (tk + j)%nat)) ->
  take n (drop c e) = map pool (seq tk n).
Proof.
  intros Hnew. apply list_eq. intros j.
  destruct (Nat.lt_ge_cases j n) as [Hj | Hj].
  - rewrite lookup_take_lt, lookup_drop, Hnew by assumption.
    rewrite list_lookup_fmap, lookup_seq_lt by assumption. reflexivity.
  - rewrite lookup_take_ge by assumption.
    symmetry. apply lookup_ge_None. now rewrite length_map, length_seq.
Qed.

Lemma slots_kept (e e' : list ptr) c :
  (forall k, (k < c)%nat -> e' !! k = e !! k) -> take c e' = take c e.
Proof.
  intros Hold. apply list_eq. intros k.
  destruct (Nat.lt_ge_cases k c) as [Hk | Hk].
  - rewrite !lookup_take_lt by assumption. now apply Hold.
  - now rewrite !lookup_take_ge by assumption.
Qed.

(** A cache in order, refilled with records that are not null, is in
    order. *)
Lemma filled_wf w w' n :
  wf_tc (tc w) -> length (entry_ (tc w')) = 6%nat ->
  count_ (tc w') = count_ (tc w) + Z.of_nat n ->
  count_ (tc w) + Z.of_nat n <= capacity ->
  (forall j, (j < n)%nat ->
     entry_ (tc w') !! (Z.to_nat (count_ (tc w)) + j)%nat =
       Some (hprec_pool w (hprec_taken w + j)%nat)) ->
  (forall k, (k < Z.to_nat (count_ (tc w)))%nat ->
     entry_ (tc w') !! k = entry_ (tc w) !! k) ->
  (forall j, (j < n)%nat -> hprec_pool w (hprec_taken w + j)%nat <> nullptr) ->
  wf_tc (tc w').
Proof.
  intros (Hlen & Hc & Hnn) Hlen' Hc' Hcap Hnew Hold Hpool.
  unfold wf_tc. split_and!; [exact Hlen' | lia | lia |].
  intros k p Hk E.
  destruct (Nat.lt_ge_cases k (Z.to_nat (count_ (tc w)))) as [Hlt | Hge].
  - rewrite Hold in E by assumption. now apply (Hnn k).
  - replace k with (Z.to_nat (count_ (tc w)) + (k - Z.to_nat (count_ (tc w))))%nat
      in E by lia.
    rewrite Hnew in E by lia. injection E as <-. apply Hpool. lia.
Qed.

(** X1: [fill num] within the capacity, with the rate check passing,
    acquires [num] records from the domain, stores them in that order in
    the [num] slots above the occupied ones, raises [count_] by [num]
    and leaves the occupied slots alone; the domain sees these [num]
    acquires and nothing else. If the cache was in order and the records
    are not null, it is in order afterwards. *)
Theorem fill_acquires (d : bool) (num : Z) (w : world) :
  wf_tc (tc w) -> 0 <= num -> count_ (tc w) + num <= capacity ->
  0 <= num_fills_ (tc w) <= max_fills ->
  (num_fills_ (tc w) = max_fills ->
     period_ns < steady_clock w - first_fill_time_ (tc w)) ->
  (forall j, (j < Z.to_nat num)%nat ->
     hprec_pool w (hprec_taken w + j)%nat <> nullptr) ->
  exists w',
    fill d num w = (Val tt, w') /\
    count_ (tc w') = count_ (tc w) + num /\
    take (Z.to_nat num) (drop (Z.to_nat (count_ (tc w))) (entry_ (tc w'))) =
      handed_out w (hprec_taken w) (Z.to_nat num) /\
    take (Z.to_nat (count_ (tc w))) (entry_ (tc w')) =
      take (Z.to_nat (count_ (tc w))) (entry_ (tc w)) /\
    hprec_taken w' = (hprec_taken w + Z.to_nat num)%nat /\
    domain_log w' =
      domain_log w ++
      map HprecAcquire (handed_out w (hprec_taken w) (Z.to_nat num)) /\
    wf_tc (tc w').
Proof.
  intros Hwf Hn0 Hcap Hnf Htime Hpool.
  pose proof Hwf as (Hlen & Hc & _).
  destruct (fill_ok d num w Hlen ltac:(lia) Hn0 Hcap Hnf Htime)
    as (w' & Hrun & Hlen' & Hc' & _ & _ & _ & Htk' & Hlog' & Hnew & Hold).
  exists w'. split_and!; try assumption.
  - now apply slots_handed_out.
  - now apply slots_kept.
  - apply (filled_wf w w' (Z.to_nat num)); try assumption;
      rewrite Z2Nat.id by lia; assumption.
Qed.

Lemma fill_acquires_witness :
  exists w',
    fill true 2 three_cached = (Val tt, w') /\
    count_ (tc w') = 5 /\
    take 2 (drop 3 (entry_ (tc w'))) = [103; 104] /\
    take 3 (entry_ (tc w')) = [11; 12; 13] /\
    hprec_taken w' = 5%nat /\
    domain_log w' = [HprecAcquire 103; HprecAcquire 104] /\
    wf_tc (tc w').
Proof.
  refine (fill_acquires true 2 three_cached _ _ _ _ _ _).
  - apply wf_tcb_sound. reflexivity.
  - lia.
  - cbn. unfold capacity, kCapacity. lia.
  - cbn. unfold max_fills. lia.
  - cbn. unfold max_fills. lia.
  - intros j _. cbn. unfold nullptr. lia.
Defined.

(** X2: [evict num] with [num] no more than [count_] releases the
    records of the top [num] occupied slots to the domain, topmost
    first, lowers [count_] by [num] and changes no slot; the domain sees
    these [num] releases and nothing else, and the cache stays in
    order. *)
Theorem evict_releases (d : bool) (num : Z) (w : world) :
  wf_tc (tc w) -> 0 <= num <= count_ (tc w) ->
  exists w' released,
    evict d num w = (Val tt, w') /\
    count_ (tc w') = count_ (tc w) - num /\
    entry_ (tc w') = entry_ (tc w) /\
    released =
      rev (take (Z.to_nat num)
             (drop (Z.to_nat (count_ (tc w) - num)) (entry_ (tc w)))) /\
    length released = Z.to_nat num /\
    domain_log w' = domain_log w ++ map HprecRelease released /\
    hprec_taken w' = hprec_taken w /\
    wf_tc (tc w').
Proof.
  intros Hwf Hn. pose proof Hwf as (Hlen & Hc & Hnn).
  unfold capacity, kCapacity in Hc.
  eexists _, _. split; [exact (evict_ok d num w Hwf Hn) |].
  cbn [tc with_count count_ entry_ domain_log hprec_taken].
  replace (Z.to_nat (count_ (tc w)) - Z.to_nat num)%nat
    with (Z.to_nat (count_ (tc w) - num)) by lia.
  split_and!; try reflexivity.
  - rewrite length_rev, length_take, length_drop, Hlen. lia.
  - unfold wf_tc. cbn.
    split_and!; [exact Hlen | lia | unfold capacity, kCapacity; lia |].
    intros k p Hk. apply Hnn. lia.
Qed.

Lemma evict_releases_witness :
  exists w' released,
    evict true 2 three_cached = (Val tt, w') /\
    count_ (tc w') = 1 /\
    entry_ (tc w') = entry_ (tc three_cached) /\
    released = [13; 12] /\
    length released = 2%nat /\
    domain_log w' = map HprecRelease released /\
    hprec_taken w' = 3%nat /\
    wf_tc (tc w').
Proof.
  refine (evict_releases true 2 three_cached _ _).
  - apply wf_tcb_sound. reflexivity.
  - cbn. lia.
Defined.

(** X3: [fill num] followed by [evict num] gives back to the domain
    exactly the records it took from it, the last one acquired first,
    and leaves [count_] and the occupied slots as they were. *)
Theorem fill_evict_round_trip (d : bool) (num : Z) (w : world) :
  wf_tc (tc w) -> 0 <= num -> count_ (tc w) + num <= capacity ->
  0 <= num_fills_ (tc w) <= max_fills ->
  (num_fills_ (tc w) = max_fills ->
     period_ns < steady_clock w - first_fill_time_ (tc w)) ->
  (forall j, (j < Z.to_nat num)%nat ->
     hprec_pool w (hprec_taken w + j)%nat <> nullptr) ->
  exists w',
    (fill d num ;;; evict d num) w = (Val tt, w') /\
    count_ (tc w') = count_ (tc w) /\
    take (Z.to_nat (count_ (tc w))) (entry_ (tc w')) =
      take (Z.to_nat (count_ (tc w))) (entry_ (tc w)) /\
    domain_log w' =
      domain_log w ++
      map HprecAcquire (handed_out w (hprec_taken w) (Z.to_nat num)) ++
      map HprecRelease (rev (handed_out w (hprec_taken w) (Z.to_nat num))).
Proof.
  intros Hwf Hn0 Hcap Hnf Htime Hpool.
  pose proof Hwf as (Hlen & Hc & _).
  destruct (fill_ok d num w Hlen ltac:(lia) Hn0 Hcap Hnf Htime)
    as (w1 & Hrun & Hlen1 & Hc1 & _ & _ & _ & Htk1 & Hlog1 & Hnew & Hold).
  assert (wf_tc (tc w1)) as Hwf1
    by (apply (filled_wf w w1 (Z.to_nat num)); try assumption;
        rewrite Z2Nat.id by lia; assumption).
  eexists. split.
  - rewrite (bind_val _ _ _ _ _ Hrun).
    apply (evict_ok d num w1 Hwf1). lia.
  - cbn [tc with_count count_ entry_ domain_log].
    split_and!.
    + lia.
    + now apply slots_kept.
    + rewrite Hlog1, <- app_assoc. do 4 f_equal.
      replace (Z.to_nat (count_ (tc w1)) - Z.to_nat num)%nat
        with (Z.to_nat (count_ (tc w))) by lia.
      now apply slots_handed_out.
Qed.

Lemma fill_evict_round_trip_witness :
  exists w',
    (fill true 2 ;;; evict true 2) three_cached = (Val tt, w') /\
    count_ (tc w') = 3 /\
    take 3 (entry_ (tc w')) = [11; 12; 13] /\
    domain_log w' =
      [HprecAcquire 103; HprecAcquire 104; HprecRelease 104; HprecRelease 103].
Proof.
  refine (fill_evict_round_trip true 2 three_cached _ _ _ _ _ _).
  - apply wf_tcb_sound. reflexivity.
  - lia.
  - cbn. unfold capacity, kCapacity. lia.
  - cbn. unfold max_fills. lia.
  - cbn. unfold max_fills. lia.
  - intros j _. cbn. unfold nullptr. lia.
Defined.

(** X4: whatever was drained by [evict] before, teardown releases the
    rest: over [evict num] followed by [~hazptr_tc] every record that
    was cached is released to the domain exactly once, and no other
    call reaches the domain. *)
Theorem evict_then_teardown (d : bool) (num : Z) (w : world) :
  wf_tc (tc w) -> 0 <= num <= count_ (tc w) ->
  exists w' released,
    (evict d num ;;; destructor) w = (Val tt, w') /\
    domain_log w' = domain_log w ++ map HprecRelease released /\
    Permutation released (take (Z.to_nat (count_ (tc w))) (entry_ (tc w))) /\
    released =
      rev (take (Z.to_nat num)
             (drop (Z.to_nat (count_ (tc w) - num)) (entry_ (tc w)))) ++
      take (Z.to_nat (count_ (tc w) - num)) (entry_ (tc w)).
Proof.
  intros Hwf Hn. pose proof Hwf as (Hlen & Hc & Hnn).
  unfold capacity, kCapacity in Hc.
  rewrite (bind_val _ _ _ _ _ (evict_ok d num w Hwf Hn)).
  rewrite tc_destructor_run.
  - eexists _, _. split; [reflexivity |].
    cbn [tc with_count count_ entry_ domain_log].
    replace (Z.to_nat (count_ (tc w)) - Z.to_nat num)%nat
      with (Z.to_nat (count_ (tc w) - num)) by lia.
    split_and!.
    + now rewrite <- app_assoc, map_app.
    + rewrite <- Permutation_rev, Permutation_app_comm.
      rewrite take_take_drop. apply reflexive_eq. f_equal. lia.
    + reflexivity.
  - unfold wf_tc. cbn.
    split_and!; [exact Hlen | lia | unfold capacity, kCapacity; lia |].
    intros k p Hk. apply Hnn. lia.
Qed.

Lemma evict_then_teardown_witness :
  exists w' released,
    (evict true 2 ;;; destructor) three_cached = (Val tt, w') /\
    domain_log w' = map HprecRelease released /\
    Permutation released [11; 12; 13] /\
    released = [13; 12; 11].
Proof.
  refine (evict_then_teardown true 2 three_cached _ _).
  - apply wf_tcb_sound. reflexivity.
  - cbn. lia.
Defined.

(** X5: no record is lost over a refill and a teardown: after [fill num]
    the destructor releases the records that were cached before and the
    [num] acquired ones, each once. *)
Theorem fill_then_teardown (d : bool) (num : Z) (w : world) :
  wf_tc (tc w) -> 0 <= num -> count_ (tc w) + num <= capacity ->
  0 <= num_fills_ (tc w) <= max_fills ->
  (num_fills_ (tc w) = max_fills ->
     period_ns < steady_clock w - first_fill_time_ (tc w)) ->
  (forall j, (j < Z.to_nat num)%nat ->
     hprec_pool w (hprec_taken w + j)%nat <> nullptr) ->
  exists w',
    (fill d num ;;; destructor) w = (Val tt, w') /\
    domain_log w' =
      domain_log w ++
      map HprecAcquire (handed_out w (hprec_taken w) (Z.to_nat num)) ++
      map HprecRelease
        (take (Z.to_nat (count_ (tc w))) (entry_ (tc w)) ++
         handed_out w (hprec_taken w) (Z.to_nat num)).
Proof.
  intros Hwf Hn0 Hcap Hnf Htime Hpool.
  pose proof Hwf as (Hlen & Hc & _).
  destruct (fill_ok d num w Hlen ltac:(lia) Hn0 Hcap Hnf Htime)
    as (w1 & Hrun & Hlen1 & Hc1 & _ & _ & _ & Htk1 & Hlog1 & Hnew & Hold).
  assert (wf_tc (tc w1)) as Hwf1
    by (apply (filled_wf w w1 (Z.to_nat num)); try assumption;
        rewrite Z2Nat.id by lia; assumption).
  eexists. split.
  - rewrite (bind_val _ _ _ _ _ Hrun). apply (tc_destructor_run w1 Hwf1).
  - cbn [domain_log]. rewrite Hlog1, <- app_assoc. do 3 f_equal.
    replace (Z.to_nat (count_ (tc w1)))
      with (Z.to_nat (count_ (tc w)) + Z.to_nat num)%nat by lia.
    rewrite <- take_take_drop. f_equal.
    + now apply slots_kept.
    + now apply slots_handed_out.
Qed.

Lemma fill_then_teardown_witness :
  exists w',
    (fill true 2 ;;; destructor) three_cached = (Val tt, w') /\
    domain_log w' =
      [HprecAcquire 103; HprecAcquire 104; HprecRelease 11; HprecRelease 12;
       HprecRelease 13; HprecRelease 103; HprecRelease 104].
Proof.
  refine (fill_then_teardown true 2 three_cached _ _ _ _ _ _).
  - apply wf_tcb_sound. reflexivity.
  - lia.
  - cbn. unfold capacity, kCapacity. lia.
  - cbn. unfold max_fills. lia.
  - cbn. unfold max_fills. lia.
  - intros j _. cbn. unfold nullptr. lia.
Defined.

(** X6: on a cache in order that holds something, [try_get] followed
    by [try_put] of the record it returned gives back the very state it
    started from. *)
Theorem try_get_try_put (w : world) :
  wf_tc (tc w) -> 0 < count_ (tc w) ->
  exists hprec,
    entry_ (tc w) !! Z.to_nat (count_ (tc w) - 1) = Some hprec /\
    try_get w = (Val hprec, with_tc (with_count (count_ (tc w) - 1)) w) /\
    (h <- try_get ;; try_put h) w = (Val true, w).
Proof.
  intros (Hlen & Hc & Hnn) Hpos. unfold capacity, kCapacity in Hc.
  assert (Z.to_nat (count_ (tc w) - 1) < length (entry_ (tc w)))%nat as Hi
    by (rewrite Hlen; lia).
  destruct (lookup_lt_is_Some_2 _ _ Hi) as [hprec E].
  pose proof (try_get_occupied w hprec ltac:(lia) E) as Hget.
  exists hprec. split_and!; [exact E | exact Hget |].
  rewrite (bind_val _ _ _ _ _ Hget).
  rewrite try_put_room.
  - f_equal. destruct w as [[e c l nf ff] clk pool tk lg].
    cbn in *. unfold with_tc, with_entry, with_count. cbn.
    rewrite list_insert_id by exact E.
    do 2 f_equal. lia.
  - split; [exact Hlen | cbn; lia].
  - cbn. unfold capacity, kCapacity. lia.
Qed.

Lemma try_get_try_put_witness :
  exists hprec,
    entry_ (tc three_cached) !! Z.to_nat (count_ (tc three_cached) - 1)
      = Some hprec /\
    try_get three_cached =
      (Val hprec,
       with_tc (with_count (count_ (tc three_cached) - 1)) three_cached) /\
    (h <- try_get ;; try_put h) three_cached = (Val true, three_cached).
Proof.
  refine (try_get_try_put three_cached _ _).
  - apply wf_tcb_sound. reflexivity.
  - reflexivity.
Defined.

(** One operation, in a debug build, from a state with [cache_inv]. *)
Lemma run_op_safe o w :
  cache_inv w -> op_ok o ->
  exists r w',
    run_op true o w = (r, w') /\ wf_tc (tc w') /\
    ((r = Val tt /\ cache_inv w') \/ (exists k, r = Abort k)).
Proof.
  intros (Hwf & Hnf & Hpool) Hok.
  pose proof Hwf as (Hlen & Hc & Hnn). unfold capacity, kCapacity in Hc.
  destruct o as [| hprec | t num | num]; cbn [run_op op_ok] in *.
  - destruct (Z.eq_dec (count_ (tc w)) 0) as [E0 | N0].
    + rewrite (bind_val _ _ _ _ _ (try_get_drained w E0)).
      eexists _, _. split; [reflexivity |]. split; [exact Hwf |].
      left. now split.
    + assert (Z.to_nat (count_ (tc w) - 1) < length (entry_ (tc w)))%nat as Hi
        by (rewrite Hlen; lia).
      destruct (lookup_lt_is_Some_2 _ _ Hi) as [hprec E].
      rewrite (bind_val _ _ _ _ _ (try_get_occupied w hprec ltac:(lia) E)).
      assert (wf_tc (tc (with_tc (with_count (count_ (tc w) - 1)) w))) as Hwf'.
      { unfold wf_tc. cbn.
        split_and!; [exact Hlen | lia | unfold capacity, kCapacity; lia |].
        intros k p Hk. apply Hnn. lia. }
      eexists _, _. split; [reflexivity |]. split; [exact Hwf' |].
      left. split; [reflexivity |]. now split.
  - destruct (Z.lt_ge_cases (count_ (tc w)) capacity) as [Hlt | Hge].
    + rewrite (bind_val _ _ _ _ _
                 (try_put_room hprec w ltac:(split; [exact Hlen | lia]) Hlt)).
      unfold capacity, kCapacity in Hlt.
      match goal with |- context [ret tt ?w1] =>
        assert (wf_tc (tc w1)) as Hwf' end.
      { unfold wf_tc. cbn.
        split_and!; [now rewrite length_insert | lia
                    | unfold capacity, kCapacity; lia |].
        intros k p Hk E.
        destruct (Nat.eq_dec k (Z.to_nat (count_ (tc w)))) as [-> | Hne].
        - rewrite list_lookup_insert_eq in E by lia. now injection E as <-.
        - rewrite list_lookup_insert_ne in E by lia.
          apply (Hnn k p); [lia | exact E]. }
      eexists _, _. split; [reflexivity |]. split; [exact Hwf' |].
      left. split; [reflexivity |]. now split.
    + rewrite (bind_val _ _ _ _ _ (try_put_full hprec w Hge)).
      eexists _, _. split; [reflexivity |]. split; [exact Hwf |].
      left. now split.
  - destruct (Z.lt_ge_cases capacity (count_ (tc w) + num)) as [Hover | Hfits].
    + rewrite (fill_dcheck_fails num (at_time t w) Hover).
      eexists _, _. split; [reflexivity |]. split; [exact Hwf |].
      right. now eexists.
    + destruct (rate_check_frame (at_time t w) Hnf)
        as (r & w1 & Hrate & _ & _ & _ & _ & _ & _ & _ & Hres).
      destruct Hres as [(-> & Hnf1 & Htime) | (-> & E10 & Hle)].
      * destruct (fill_ok true num (at_time t w) Hlen ltac:(cbn; lia)
                    ltac:(lia) Hfits Hnf Htime)
          as (w' & Hrun & Hlen' & Hc' & Hnf' & _ & Hpool' & _ & _ & Hnew & Hold).
        assert (wf_tc (tc w')) as Hwf'.
        { apply (filled_wf (at_time t w) w' (Z.to_nat num)); try assumption;
            try (rewrite Z2Nat.id by lia; assumption).
          intros j _. apply Hpool. }
        exists (Val tt), w'. split; [exact Hrun |]. split; [exact Hwf' |].
        left. split; [reflexivity |].
        split; [exact Hwf' | split; [lia |]].
        intros k. rewrite Hpool'. apply Hpool.
      * rewrite (fill_rate_fails true num (at_time t w) Hfits E10 Hle).
        eexists _, _. split; [reflexivity |]. split; [exact Hwf |].
        right. now eexists.
  - destruct (Z.lt_ge_cases (count_ (tc w)) num) as [Hover | Hfits].
    + rewrite (evict_dcheck_fails num w Hover).
      eexists _, _. split; [reflexivity |]. split; [exact Hwf |].
      right. now eexists.
    + rewrite (evict_ok true num w Hwf ltac:(lia)).
      assert (wf_tc (with_count (count_ (tc w) - num) (tc w))) as Hwf'.
      { unfold wf_tc. cbn.
        split_and!; [exact Hlen | lia | unfold capacity, kCapacity; lia |].
        intros k p Hk. apply Hnn. lia. }
      eexists _, _. split; [reflexivity |]. split; [exact Hwf' |].
      left. split; [reflexivity |]. now split.
Qed.

(** X7: in a build with [DCHECK], from a cache in order over a domain
    whose records are not null, no series of [try_get], [try_put],
    [fill] and [evict] calls ever reaches undefined behaviour: it runs
    to its end or stops at a failed check, and either way the array has
    its six slots, [count_] is within the capacity and every occupied
    slot holds a record. When it runs to its end the refill counter is
    within its limit of 10. *)
Theorem debug_build_stays_defined (os : list tc_op) (w : world) :
  cache_inv w -> Forall op_ok os ->
  exists r w',
    run_ops true os w = (r, w') /\
    wf_tc (tc w') /\ 0 <= count_ (tc w') <= capacity /\
    r <> Undefined /\ r <> Spinning /\
    (r = Val tt -> cache_inv w').
Proof.
  revert w. induction os as [| o os IH]; intros w Hinv Hok.
  - exists (Val tt), w. pose proof Hinv as (Hwf & _).
    pose proof Hwf as (_ & Hc & _).
    split; [reflexivity |]. split; [exact Hwf | split; [exact Hc |]].
    split_and!; easy.
  - apply Forall_cons in Hok as [Ho Hos]. cbn [run_ops].
    destruct (run_op_safe o w Hinv Ho) as (r & w1 & Hrun & Hwf1 & Hres).
    destruct Hres as [(-> & Hinv1) | (k & ->)].
    + rewrite (bind_val _ _ _ _ _ Hrun). now apply IH.
    + rewrite (bind_abort _ _ _ _ _ Hrun).
      pose proof Hwf1 as (_ & Hc1 & _).
      eexists _, _. split; [reflexivity |].
      split; [exact Hwf1 | split; [exact Hc1 |]].
      split_and!; easy.
Qed.

Lemma debug_build_stays_defined_witness :
  exists r w',
    run_ops true [OpFill 5 3; OpTryGet; OpEvict 7; OpTryPut 9] three_cached
      = (r, w') /\
    wf_tc (tc w') /\ 0 <= count_ (tc w') <= capacity /\
    r <> Undefined /\ r <> Spinning /\
    (r = Val tt -> cache_inv w').
Proof.
  refine (debug_build_stays_defined
            [OpFill 5 3; OpTryGet; OpEvict 7; OpTryPut 9] three_cached _ _).
  - split_and!.
    + apply wf_tcb_sound. reflexivity.
    + cbn. lia.
    + cbn. unfold max_fills. lia.
    + intros k. cbn. unfold nullptr. lia.
  - repeat constructor; cbn; unfold nullptr; lia.
Defined.

Lemma fill_agree num w :
  fst (fill true num w) <> Abort DcheckFailed ->
  fill false num w = fill true num w.
Proof.
  rewrite !fill_unfold. unfold count. rewrite !bind_gets. unfold DCHECK.
  destruct (count_ (tc w) + num <=? capacity); cbn [negb andb].
  - reflexivity.
  - intros H. exfalso. apply H. reflexivity.
Qed.

Lemma evict_agree num w :
  fst (evict true num w) <> Abort DcheckFailed ->
  evict false num w = evict true num w.
Proof.
  rewrite !evict_unfold. unfold count. rewrite !bind_gets. unfold DCHECK.
  destruct (num <=? count_ (tc w)); cbn [negb andb].
  - reflexivity.
  - intros H. exfalso. apply H. reflexivity.
Qed.

(** X8: the debug checks only watch. A series of cache operations that
    does not stop at a failed [DCHECK] in a debug build does, in a build
    without [DCHECK], exactly what it does in the debug build: the same
    outcome and the same state. *)
Theorem builds_agree (os : list tc_op) (w : world) :
  fst (run_ops true os w) <> Abort DcheckFailed ->
  run_ops false os w = run_ops true os w.
Proof.
  revert w. induction os as [| o os IH]; intros w H; [reflexivity |].
  cbn [run_ops] in *.
  assert (run_op false o w = run_op true o w) as Ho.
  { destruct o as [| hprec | t num | num]; cbn [run_op] in *;
      try reflexivity.
    - apply fill_agree. intros E. apply H. unfold bind.
      destruct (fill true num (at_time t w)) as [r w1]. cbn in E. now subst r.
    - apply evict_agree. intros E. apply H. unfold bind.
      destruct (evict true num w) as [r w1]. cbn in E. now subst r. }
  unfold bind in *. rewrite Ho.
  destruct (run_op true o w) as [[[] | k | |] w1]; try reflexivity.
  now apply IH.
Qed.

Lemma builds_agree_witness :
  run_ops false [OpFill 5 3; OpTryGet; OpEvict 2; OpTryPut 9] three_cached =
  run_ops true [OpFill 5 3; OpTryGet; OpEvict 2; OpTryPut 9] three_cached.
Proof.
  refine (builds_agree [OpFill 5 3; OpTryGet; OpEvict 2; OpTryPut 9]
            three_cached _).
  vm_compute. discriminate.
Defined.

(** [try_put] of a series of records that fits. *)
Lemma put_all_run hs : forall w,
  typed_tc (tc w) -> count_ (tc w) + Z.of_nat (length hs) <= capacity ->
  exists w',
    put_all hs w = (Val tt, w') /\
    length (entry_ (tc w')) = 6%nat /\
    count_ (tc w') = count_ (tc w) + Z.of_nat (length hs) /\
    domain_log w' = domain_log w /\ hprec_taken w' = hprec_taken w /\
    (forall j, (j < length hs)%nat ->
       entry_ (tc w') !! (Z.to_nat (count_ (tc w)) + j)%nat = hs !! j) /\
    (forall k, (k < Z.to_nat (count_ (tc w)))%nat ->
       entry_ (tc w') !! k = entry_ (tc w) !! k).
Proof.
  induction hs as [| h hs IH]; intros w Ht Hcap.
  - exists w. destruct Ht as [Hlen Hc]. cbn. rewrite Z.add_0_r.
    split_and!; try reflexivity; try assumption. intros j Hj. lia.
  - pose proof Ht as [Hlen Hc]. cbn [length] in Hcap.
    rewrite Nat2Z.inj_succ in Hcap. unfold capacity, kCapacity in Hcap.
    cbn [put_all].
    rewrite (bind_val _ _ _ _ _
               (try_put_room h w Ht ltac:(unfold capacity, kCapacity; lia))).
    match goal with |- context [put_all hs ?w1] =>
      destruct (IH w1) as (w' & Hrun & Hlen' & Hc' & Hlog' & Htk' & Hnew & Hold)
    end.
    + split; cbn; [now rewrite length_insert | lia].
    + cbn. unfold capacity, kCapacity. lia.
    + cbn in Hc', Hlog', Htk', Hnew, Hold.
      exists w'. split; [exact Hrun |].
      split_and!; try assumption.
      * cbn [length]. rewrite Nat2Z.inj_succ. lia.
      * intros j Hj. destruct j as [| j].
        -- rewrite Nat.add_0_r, Hold by lia. cbn.
           apply list_lookup_insert_eq. lia.
        -- replace (Z.to_nat (count_ (tc w)) + S j)%nat
             with (Z.to_nat (count_ (tc w) + 1) + j)%nat by lia.
           cbn [length] in Hj. rewrite Hnew by lia. reflexivity.
      * intros k Hk. rewrite Hold by lia.
        apply list_lookup_insert_ne. lia.
Qed.

(** [try_get] [n] times over on a cache that holds as many: the top [n]
    slots, topmost first. *)
Lemma get_n_run n : forall w,
  length (entry_ (tc w)) = 6%nat ->
  Z.of_nat n <= count_ (tc w) <= capacity ->
  get_n n w =
    (Val (rev (take n (drop (Z.to_nat (count_ (tc w)) - n) (entry_ (tc w))))),
     with_tc (with_count (count_ (tc w) - Z.of_nat n)) w).
Proof.
  induction n as [| n IH]; intros w Hlen Hc.
  - cbn. unfold ret. f_equal. rewrite Z.sub_0_r.
    destruct w as [[e c l nf ff] clk pool tk lg]. reflexivity.
  - unfold capacity, kCapacity in Hc. rewrite Nat2Z.inj_succ in Hc.
    assert (Z.to_nat (count_ (tc w) - 1) < length (entry_ (tc w)))%nat as Hi
      by (rewrite Hlen; lia).
    destruct (lookup_lt_is_Some_2 _ _ Hi) as [hprec E].
    cbn [get_n].
    rewrite (bind_val _ _ _ _ _ (try_get_occupied w hprec ltac:(lia) E)).
    rewrite (bind_val _ _ _ _ _
               (IH (with_tc (with_count (count_ (tc w) - 1)) w) Hlen
                  ltac:(cbn; unfold capacity, kCapacity; lia))).
    unfold ret. cbn [with_tc with_count tc count_ entry_]. f_equal.
    + f_equal.
      replace (Z.to_nat (count_ (tc w) - 1) - n)%nat
        with (Z.to_nat (count_ (tc w)) - S n)%nat by lia.
      rewrite (take_S_r _ n hprec).
      * now rewrite rev_app_distr.
      * rewrite lookup_drop, <- E. f_equal. lia.
    + unfold with_tc, with_count. cbn. do 2 f_equal. lia.
Qed.

(** X9: the cache is a stack. Records put with [try_put] one after the
    other, as many as fit, come back from as many [try_get] calls in the
    reverse order; [count_] and the slots occupied before are then as
    they were, and the domain saw no call. *)
Theorem put_all_get_all (hs : list ptr) (w : world) :
  typed_tc (tc w) -> count_ (tc w) + Z.of_nat (length hs) <= capacity ->
  exists w',
    (put_all hs ;;; get_n (length hs)) w = (Val (rev hs), w') /\
    count_ (tc w') = count_ (tc w) /\
    take (Z.to_nat (count_ (tc w))) (entry_ (tc w')) =
      take (Z.to_nat (count_ (tc w))) (entry_ (tc w)) /\
    domain_log w' = domain_log w /\ hprec_taken w' = hprec_taken w.
Proof.
  intros Ht Hcap. pose proof Ht as [Hlen Hc].
  destruct (put_all_run hs w Ht Hcap)
    as (w1 & Hrun & Hlen1 & Hc1 & Hlog1 & Htk1 & Hnew & Hold).
  eexists. split.
  - rewrite (bind_val _ _ _ _ _ Hrun).
    rewrite (get_n_run (length hs) w1 Hlen1 ltac:(lia)).
    do 3 f_equal.
    replace (Z.to_nat (count_ (tc w1)) - length hs)%nat
      with (Z.to_nat (count_ (tc w))) by lia.
    apply list_eq. intros j.
    destruct (Nat.lt_ge_cases j (length hs)) as [Hj | Hj].
    + now rewrite lookup_take_lt, lookup_drop, Hnew by assumption.
    + rewrite lookup_take_ge by assumption.
      symmetry. now apply lookup_ge_None.
  - cbn [with_tc with_count tc count_ entry_ domain_log hprec_taken].
    split_and!; try assumption; [lia |].
    now apply slots_kept.
Qed.

Lemma put_all_get_all_witness :
  exists w',
    (put_all [7; 8; 9] ;;; get_n 3) three_cached = (Val [9; 8; 7], w') /\
    count_ (tc w') = 3 /\
    take 3 (entry_ (tc w')) = [11; 12; 13] /\
    domain_log w' = [] /\ hprec_taken w' = 3%nat.
Proof.
  refine (put_all_get_all [7; 8; 9] three_cached _ _).
  - split; [reflexivity | cbn; lia].
  - cbn. unfold capacity, kCapacity. lia.
Defined.

(** X10: the debug check of [operator[]] is off by one. For an index
    below the capacity the entry is read in either build. At the index
    equal to the capacity the check [i <= capacity()] passes and the
    read goes past the end of [entry_]; only above the capacity does a
    debug build abort. A build without [DCHECK] reads past the end for
    every index from the capacity on. *)
Theorem subscript_bounds (d : bool) (i : Z) (w : world) :
  length (entry_ (tc w)) = 6%nat -> 0 <= i ->
  (i < capacity ->
     exists hprec,
       entry_ (tc w) !! Z.to_nat i = Some hprec /\
       subscript_get d i w = (Val hprec, w)) /\
  (i = capacity -> subscript_get d i w = (Undefined, w)) /\
  (capacity < i -> subscript_get true i w = (Abort DcheckFailed, w)) /\
  (capacity < i -> subscript_get false i w = (Undefined, w)).
Proof.
  intros Hlen Hi. unfold subscript_get, DCHECK, capacity, kCapacity.
  split_and!.
  - intros Hlt.
    destruct (lookup_lt_is_Some_2 (entry_ (tc w)) (Z.to_nat i)) as [hprec E];
      [rewrite Hlen; lia |].
    exists hprec. split; [exact E |].
    destruct (Z.leb_spec i 6); [| lia].
    rewrite andb_false_r, bind_ret. now apply entry_get_some.
  - intros ->. cbn [Z.leb Z.compare negb]. rewrite andb_false_r, bind_ret.
    unfold entry_get. rewrite bind_gets.
    rewrite (proj2 (lookup_ge_None _ _)) by (rewrite Hlen; cbn; lia).
    reflexivity.
  - intros Hgt. destruct (Z.leb_spec i 6); [lia | reflexivity].
  - intros Hgt. cbn [andb]. rewrite bind_ret.
    unfold entry_get. rewrite bind_gets.
    rewrite (proj2 (lookup_ge_None _ _)) by (rewrite Hlen; lia).
    reflexivity.
Qed.

Lemma subscript_bounds_witness :
  subscript_get true 6 three_cached = (Undefined, three_cached).
Proof.
  refine (proj1 (proj2 (subscript_bounds true 6 three_cached _ _)) _).
  - reflexivity.
  - lia.
  - reflexivity.
Defined.

End GuardCacheMore.

(** * Further properties of the list of retired objects *)

Module RetiredBufferMore.
Import RetiredBuffer RetiredBufferFacts.

(** X11: with [tail_] set and [head_] null, the state between the two
    stores of [push_in_empty_list] and between the two exchanges of
    [collect], the loop of [push_in_priv_list] makes no progress
    however long it is left to run: every round finds a tail, finds no
    head, and goes round again; nothing is written. *)
Theorem push_spins (d : bool) (spin : nat) (obj : ptr)
    (reentrant : list retire) (w : world) :
  in_dtor_ (priv w) = false ->
  tail_ (priv w) <> nullptr -> head_ (priv w) = nullptr ->
  push_loop spin obj w = (Spinning, w) /\
  push d spin (Retire obj reentrant) w = (Spinning, with_call obj w).
Proof.
  intros Hd Ht Hh.
  assert (forall w0, tail_ (priv w0) <> nullptr -> head_ (priv w0) = nullptr ->
            push_loop spin obj w0 = (Spinning, w0)) as Hloop.
  { clear. intros w Ht Hh. induction spin as [| spin IH]; [reflexivity |].
    cbn [push_loop]. unfold tail, push_in_non_empty_list, head.
    rewrite bind_gets.
    destruct (Z.eqb_spec (tail_ (priv w)) nullptr) as [| _]; [contradiction |].
    cbn [negb]. unfold bind at 1. unfold bind at 1. unfold gets at 1.
    rewrite Hh. cbn. exact IH. }
  split; [now apply Hloop |].
  rewrite push_unfold. unfold push_body, push_in_priv_list.
  rewrite bind_modify, bind_gets. cbn [with_call priv]. rewrite Hd. cbn [negb].
  unfold bind at 1. now rewrite (Hloop (with_call obj w) Ht Hh).
Qed.

Lemma push_spins_witness :
  push_loop 1000 9
    (Build_world (Build_hazptr_priv nullptr 7 1 false) ∅ [] []) =
    (Spinning, Build_world (Build_hazptr_priv nullptr 7 1 false) ∅ [] []) /\
  push true 1000 (plain 9)
    (Build_world (Build_hazptr_priv nullptr 7 1 false) ∅ [] []) =
    (Spinning, Build_world (Build_hazptr_priv nullptr 7 1 false) ∅ [] [9]).
Proof.
  refine (push_spins true 1000 9 []
            (Build_world (Build_hazptr_priv nullptr 7 1 false) ∅ [] []) _ _ _).
  - reflexivity.
  - discriminate.
  - reflexivity.
Defined.

(** *** Chains *)

Lemma chain_last_in next p t c : chain next p t c -> t ∈ c /\ t <> nullptr.
Proof.
  induction 1 as [p Hp | p q t l Hp Hq Hc [IH1 IH2]].
  - split; [apply list_elem_of_singleton; reflexivity | exact Hp].
  - split; [apply elem_of_cons; now right | exact IH2].
Qed.

Lemma chain_insert_fresh next p t c o v :
  chain next p t c -> o ∉ c -> chain (<[o := v]> next) p t c.
Proof.
  induction 1 as [p Hp | p q t l Hp Hq Hc IH]; intros Ho.
  - now constructor.
  - apply not_elem_of_cons in Ho as [Hne Ho].
    apply (chain_step _ p q); [assumption | | now apply IH].
    now rewrite lookup_insert_ne.
Qed.

Lemma lseg_chain next h l :
  lseg next h l -> l <> [] -> chain next h (default nullptr (last l)) l.
Proof.
  induction 1 as [| p q l Hp Hq Hl IH]; intros Hne; [contradiction |].
  destruct l as [| x l'].
  - cbn. now constructor.
  - apply (chain_step _ p q); [assumption | assumption |].
    apply IH. discriminate.
Qed.

Lemma chain_link next p t c h t' l :
  chain next p t c -> NoDup c ->
  chain (<[t := h]> next) h t' l ->
  chain (<[t := h]> next) p t' (c ++ l).
Proof.
  induction 1 as [p Hp | p q t c Hp Hq Hc IH]; intros Hnd Hl.
  - cbn. apply (chain_step _ p h); [assumption | | assumption].
    apply lookup_insert_eq.
  - apply NoDup_cons in Hnd as [Hnotin Hnd].
    cbn. apply (chain_step _ p q); [assumption | | now apply IH].
    rewrite lookup_insert_ne; [assumption |].
    intros ->. apply Hnotin. now apply (chain_last_in next q).
Qed.

Lemma collect_nothing d colHead colTail w :
  head_ (priv w) = nullptr ->
  collect d colHead colTail w = (Val (colHead, colTail), w).
Proof.
  intros E. unfold collect, exchange_head, head.
  unfold bind, gets, modify, ret. cbn.
  rewrite (priv_eta_null_head w E), E. reflexivity.
Qed.

(** X12: [collect] called with a chain already collected (the nodes [c]
    from [colHead] to [colTail]) links this buffer's list behind it:
    the chain from [colHead] to the buffer's old tail is then [c]
    followed by the buffered nodes, and the buffer is empty. [rcount_],
    [in_dtor_] and the domain are left alone. On an empty buffer
    nothing changes and the two arguments come back as they are. *)
Theorem collect_appends (d : bool) (colHead colTail : ptr) (c : list ptr)
    (w : world) (l : list ptr) :
  chain (next_ w) colHead colTail c -> NoDup c ->
  buffered w l -> (forall x, x ∈ c -> x ∉ l) ->
  (l = [] -> collect d colHead colTail w = (Val (colHead, colTail), w)) /\
  (l <> [] ->
   exists w',
     collect d colHead colTail w = (Val (colHead, tail_ (priv w)), w') /\
     chain (next_ w') colHead (tail_ (priv w)) (c ++ l) /\
     head_ (priv w') = nullptr /\ tail_ (priv w') = nullptr /\
     rcount_ (priv w') = rcount_ (priv w) /\
     in_dtor_ (priv w') = in_dtor_ (priv w) /\
     domain_log w' = domain_log w).
Proof.
  intros Hc Hndc Hb Hdisj.
  pose proof (buffered_null w l Hb) as [Hh Ht].
  pose proof (chain_last_in _ _ _ _ Hc) as [Hin Hnn].
  split.
  - intros ->. apply collect_nothing. now apply Hh.
  - intros Hne.
    exists (with_next colTail (head_ (priv w)) (detached w)). split.
    + unfold collect, exchange_head, exchange_tail, head, tail, DCHECK,
        set_next.
      unfold bind, gets, modify, ret. cbn.
      destruct (Z.eqb_spec (head_ (priv w)) nullptr) as [E | _];
        [now apply Hh in E |]. cbn.
      destruct (Z.eqb_spec (tail_ (priv w)) nullptr) as [E | _];
        [now apply Ht in E |]. cbn.
      rewrite andb_false_r.
      destruct (Z.eqb_spec colTail nullptr) as [| _]; [contradiction |].
      reflexivity.
    + cbn. split_and!; try reflexivity.
      destruct Hb as (Hseg & Htail & Hndl).
      apply (chain_link _ _ _ _ _ _ _ Hc Hndc).
      apply chain_insert_fresh; [| now apply Hdisj].
      rewrite Htail. now apply lseg_chain.
Qed.

Lemma collect_appends_witness :
  exists w',
    collect true 5 5 (counted (linked 7 (fresh_world {[5 := 0]})))
      = (Val (5, 7), w') /\
    chain (next_ w') 5 7 [5; 7] /\
    head_ (priv w') = nullptr /\ tail_ (priv w') = nullptr /\
    rcount_ (priv w') = 1 /\
    in_dtor_ (priv w') = false /\
    domain_log w' = [].
Proof.
  refine (proj2 (collect_appends true 5 5 [5]
                   (counted (linked 7 (fresh_world {[5 := 0]}))) [7]
                   _ _ _ _) _).
  - apply chain_last. discriminate.
  - apply NoDup_singleton.
  - apply (linked_buffered 7 (fresh_world {[5 := 0]}) []).
    + apply buffered_fresh.
    + discriminate.
    + apply not_elem_of_nil.
  - intros x Hx Hl. apply list_elem_of_singleton in Hx, Hl. subst. discriminate.
  - discriminate.
Defined.

(** Following a list up to one of its nodes, in a heap where only that
    node's link was written again. *)
Lemma lseg_follow next obj v a : forall h b l2,
  lseg next h (a ++ obj :: b) -> obj ∉ a ->
  lseg (<[obj := v]> next) h l2 ->
  exists l3, l2 = a ++ l3 /\ lseg (<[obj := v]> next) obj l3.
Proof.
  induction a as [| x a IH]; intros h b l2 Hseg Hfresh Hseg2.
  - cbn in Hseg. apply lseg_head in Hseg. cbn in Hseg. subst h.
    now exists l2.
  - apply not_elem_of_cons in Hfresh as [Hne Hfresh].
    cbn in Hseg. inversion Hseg as [| p q l Hp Hq Hl]; subst.
    inversion Hseg2 as [| p' q' l' Hp' Hq' Hl']; subst; [contradiction |].
    rewrite lookup_insert_ne in Hq' by congruence.
    assert (Some q = Some q') as E
      by (etransitivity; [symmetry; exact Hq | exact Hq']).
    injection E as <-.
    destruct (IH q b l' Hl Hfresh Hl') as (l3 & -> & H3).
    now exists l3.
Qed.

(** X13: [push] does not notice an object that is buffered already.
    Pushed again (below the threshold) it returns normally, but the
    object's link now leads back to the old head, from which the list
    reaches the object again: [head_] is the object and no list ending
    in a null link starts there any more. *)
Theorem push_again_loops (d : bool) (spin : nat) (obj : ptr) (w : world)
    (l : list ptr) :
  buffered w l -> in_dtor_ (priv w) = false -> obj ∈ l ->
  rcount_ (priv w) + 1 < kThreshold ->
  exists w',
    push d (S spin) (plain obj) w = (Val tt, w') /\
    head_ (priv w') = obj /\
    next_ w' !! obj = Some (head_ (priv w)) /\
    rcount_ (priv w') = rcount_ (priv w) + 1 /\
    domain_log w' = domain_log w /\
    forall l', ~ lseg (next_ w') (head_ (priv w')) l'.
Proof.
  intros Hb Hd Hin Hlt.
  pose proof Hb as (Hseg & _ & Hnd).
  assert (obj <> nullptr) as Hobj.
  { pose proof (lseg_nonnull _ _ _ Hseg) as Hnn.
    rewrite Forall_forall in Hnn. now apply Hnn. }
  exists (counted (linked obj (with_call obj w))).
  split; [exact (push_plain_below d spin obj w l Hb Hd Hobj Hlt) |].
  cbn. split_and!; try reflexivity; [apply lookup_insert_eq |].
  intros l1 Hl1.
  apply list_elem_of_split in Hin as (a & b & ->).
  assert (obj ∉ a) as Hfresh.
  { apply NoDup_app in Hnd as (_ & Hdisj & _).
    intros Ha. apply (Hdisj obj Ha). apply elem_of_cons. now left. }
  inversion Hl1 as [| p q l2 Hp Hq Hl2]; subst; [contradiction |].
  rewrite lookup_insert_eq in Hq. injection Hq as <-.
  destruct (lseg_follow _ _ _ _ _ _ _ Hseg Hfresh Hl2) as (l3 & -> & Hl3).
  pose proof (lseg_functional _ _ _ Hl1 _ Hl3) as E.
  apply (f_equal (@length ptr)) in E.
  cbn in E. rewrite length_app in E. lia.
Qed.

Lemma push_again_loops_witness :
  exists w',
    push true 1 (plain 7) (counted (linked 7 (fresh_world ∅))) = (Val tt, w') /\
    head_ (priv w') = 7 /\
    next_ w' !! 7 = Some 7 /\
    rcount_ (priv w') = 2 /\
    domain_log w' = [] /\
    forall l', ~ lseg (next_ w') (head_ (priv w')) l'.
Proof.
  refine (push_again_loops true 0 7 (counted (linked 7 (fresh_world ∅))) [7]
            _ _ _ _).
  - apply (linked_buffered 7 (fresh_world ∅) []).
    + apply buffered_fresh.
    + discriminate.
    + apply not_elem_of_nil.
  - reflexivity.
  - apply list_elem_of_singleton. reflexivity.
  - reflexivity.
Defined.

(** X14: below the threshold the buffer is a stack that the domain does
    not hear of: after plain pushes of fresh objects the list from
    [head_] is these objects, last pushed first, in front of what was
    buffered; [head_] is the last object pushed, [rcount_] went up by
    their number and no call reached the domain. *)
Theorem plain_pushes_stack (d : bool) (spin : nat) (objs : list ptr)
    (w : world) (l : list ptr) :
  buffered w l -> in_dtor_ (priv w) = false ->
  NoDup (objs ++ l) -> Forall (fun o => o <> nullptr) objs ->
  rcount_ (priv w) + Z.of_nat (length objs) < kThreshold ->
  exists w',
    run d (S spin) (map plain objs) w = (Val tt, w') /\
    buffered w' (rev objs ++ l) /\
    head_ (priv w') = hd (head_ (priv w)) (rev objs) /\
    rcount_ (priv w') = rcount_ (priv w) + Z.of_nat (length objs) /\
    domain_log w' = domain_log w /\
    retire_calls w' = retire_calls w ++ objs.
Proof.
  intros Hb Hd Hnd Hnn Hlt.
  destruct (run_plain_below d spin objs w l Hb Hd Hnd Hnn Hlt)
    as (w' & Hrun & Hb' & Hr' & _ & Hlog' & Hc').
  exists w'. split_and!; try assumption.
  destruct Hb as (Hseg & _). destruct Hb' as (Hseg' & _).
  apply lseg_head in Hseg, Hseg'. rewrite Hseg'.
  destruct (rev objs) as [| x xs]; [exact (eq_sym Hseg) | reflexivity].
Qed.

Lemma plain_pushes_stack_witness :
  exists w',
    run true 1 (map plain [3; 4; 5]) (fresh_world ∅) = (Val tt, w') /\
    buffered w' [5; 4; 3] /\
    head_ (priv w') = 5 /\
    rcount_ (priv w') = 3 /\
    domain_log w' = [] /\
    retire_calls w' = [3; 4; 5].
Proof.
  refine (plain_pushes_stack true 0 [3; 4; 5] (fresh_world ∅) []
            (buffered_fresh ∅) eq_refl _ _ _).
  - apply (bool_decide_unpack _). vm_compute. exact I.
  - apply (bool_decide_unpack _). vm_compute. exact I.
  - reflexivity.
Defined.

(** Plain pushes from a buffer whose count is right and below the
    threshold: the batches and the nodes left over. *)
Lemma run_plain_batches d spin objs : forall w l,
  buffered w l -> in_dtor_ (priv w) = false ->
  NoDup (objs ++ l) -> Forall (fun o => o <> nullptr) objs ->
  rcount_ (priv w) = Z.of_nat (length l) -> (length l < 20)%nat ->
  exists w' l' bs,
    run d (S spin) (map plain objs) w = (Val tt, w') /\
    buffered w' l' /\ in_dtor_ (priv w') = false /\
    rcount_ (priv w') = Z.of_nat (length l') /\ (length l' < 20)%nat /\
    domain_log w' = domain_log w ++ bs /\
    Forall (batch_ok 20) bs /\
    (length l' + 20 * length bs = length l + length objs)%nat /\
    Permutation (l' ++ flushed bs) (objs ++ l).
Proof.
  induction objs as [| obj objs IH]; intros w l Hb Hd Hnd Hnn Hacc Hlt.
  - exists w, l, []. cbn. rewrite !app_nil_r.
    split_and!; try reflexivity; try assumption.
    exact (ListDef.Forall_nil _).
  - apply Forall_cons in Hnn as [Hobj Hnn].
    cbn [app] in Hnd. apply NoDup_cons in Hnd as [Hfresh Hnd].
    apply not_elem_of_app in Hfresh as [Hfresh_objs Hfresh].
    apply NoDup_app in Hnd as (Hndo & Ho_l & Hndl).
    cbn [map run].
    destruct (Z.lt_ge_cases (rcount_ (priv w) + 1) kThreshold) as [Hbelow | Hge].
    + rewrite (bind_val _ _ _ _ _
                 (push_plain_below d spin obj w l Hb Hd Hobj Hbelow)).
      destruct (IH (counted (linked obj (with_call obj w))) (obj :: l))
        as (w' & l' & bs & Hrun & Hb' & Hd' & Hacc' & Hlt' & Hlog' & Hbs
            & Hcnt & Hperm).
      * now apply linked_buffered.
      * exact Hd.
      * apply NoDup_app. split_and!; [exact Hndo | |].
        -- intros x Hx Hin. apply elem_of_cons in Hin as [-> | Hin];
             [contradiction | now apply (Ho_l x)].
        -- now apply NoDup_cons.
      * exact Hnn.
      * cbn [length]. rewrite Nat2Z.inj_succ. cbn. lia.
      * unfold kThreshold in Hbelow. cbn [length]. lia.
      * exists w', l', bs. cbn in Hlog'. cbn [length] in *.
        split_and!; try assumption; [lia |].
        rewrite Hperm. cbn. now rewrite Permutation_middle.
    + assert (length l = 19%nat) as Hl19 by (unfold kThreshold in Hge; lia).
      pose proof (linked_buffered obj (with_call obj w) l Hb Hobj Hfresh)
        as (Hseg1 & Htail1 & _).
      rewrite (bind_val _ _ _ _ _
                 (push_plain_flush d spin obj w l Hb Hd Hobj Hfresh Hge
                    ltac:(unfold INT_MAX; lia))).
      match goal with |- context [run d (S spin) (map plain objs) ?w1] =>
        destruct (IH w1 [])
          as (w' & l' & bs & Hrun & Hb' & Hd' & Hacc' & Hlt' & Hlog' & Hbs
              & Hcnt & Hperm)
      end.
      * repeat split; cbn; constructor.
      * exact Hd.
      * now rewrite app_nil_r.
      * exact Hnn.
      * reflexivity.
      * cbn. lia.
      * cbn in Hlog'. cbn [length] in *.
        eexists w', l', (_ :: bs).
        split; [exact Hrun |].
        split_and!; try assumption.
        -- rewrite Hlog', <- app_assoc. reflexivity.
        -- apply Forall_cons. split; [| exact Hbs].
           unfold batch_ok. cbn [fst snd l_count l_head l_tail length hd].
           split_and!; [lia | cbn; lia | reflexivity | exact Htail1].
        -- cbn [length]. cbn [length] in Hcnt. lia.
        -- unfold flushed in *. cbn [map snd concat].
           rewrite app_nil_r in Hperm.
           rewrite (Permutation_app_comm (obj :: l)), app_assoc, Hperm.
           cbn. now rewrite Permutation_middle, Permutation_app_comm.
Qed.

(** X15: with no push coming back from the domain, starting from a
    buffer whose [rcount_] is the number of its nodes [k] and below the
    threshold, [n] pushes of fresh objects hand the domain exactly
    [(k + n) / 20] batches, each of exactly twenty nodes with a
    descriptor that says so (count 20, head the first node, tail the
    last), and leave [(k + n) mod 20] nodes buffered, with [rcount_]
    again their number; no node is lost and none is handed over
    twice. *)
Theorem plain_pushes_batches (d : bool) (spin : nat) (objs : list ptr)
    (w : world) (l : list ptr) :
  buffered w l -> in_dtor_ (priv w) = false ->
  NoDup (objs ++ l) -> Forall (fun o => o <> nullptr) objs ->
  rcount_ (priv w) = Z.of_nat (length l) -> (length l < 20)%nat ->
  exists w' l' bs,
    run d (S spin) (map plain objs) w = (Val tt, w') /\
    buffered w' l' /\
    domain_log w' = domain_log w ++ bs /\
    Forall (batch_ok 20) bs /\
    length bs = ((length l + length objs) / 20)%nat /\
    length l' = ((length l + length objs) mod 20)%nat /\
    rcount_ (priv w') = Z.of_nat (length l') /\
    Permutation (l' ++ flushed bs) (objs ++ l) /\
    NoDup (l' ++ flushed bs).
Proof.
  intros Hb Hd Hnd Hnn Hacc Hlt.
  destruct (run_plain_batches d spin objs w l Hb Hd Hnd Hnn Hacc Hlt) as
    (w' & l' & bs & Hrun & Hb' & _ & Hacc' & Hlt' & Hlog' & Hbs & Hcnt & Hperm).
  exists w', l', bs. split_and!; try assumption.
  - apply (Nat.div_unique _ 20 _ (length l')); lia.
  - apply (Nat.mod_unique _ 20 (length bs)); lia.
  - rewrite Hperm. exact Hnd.
Qed.

Lemma plain_pushes_batches_witness :
  exists w' l' bs,
    run true 1 (map plain (map Z.of_nat (seq 1 45))) (fresh_world ∅)
      = (Val tt, w') /\
    buffered w' l' /\
    domain_log w' = bs /\
    Forall (batch_ok 20) bs /\
    length bs = 2%nat /\
    length l' = 5%nat /\
    rcount_ (priv w') = Z.of_nat (length l') /\
    Permutation (l' ++ flushed bs) (map Z.of_nat (seq 1 45) ++ []) /\
    NoDup (l' ++ flushed bs).
Proof.
  refine (plain_pushes_batches true 0 (map Z.of_nat (seq 1 45))
            (fresh_world ∅) [] (buffered_fresh ∅) eq_refl _ _ eq_refl _).
  - apply (bool_decide_unpack _). vm_compute. exact I.
  - apply (bool_decide_unpack _). vm_compute. exact I.
  - cbn. lia.
Defined.

Lemma flushed_app b1 b2 : flushed (b1 ++ b2) = flushed b1 ++ flushed b2.
Proof. unfold flushed. now rewrite map_app, concat_app. Qed.

(** X16: nothing is lost when the thread exits. After any script of
    pushes of fresh objects, reentrant ones included, followed by
    [~hazptr_priv] (into whose flush the pushes [late] come back when
    there is something to flush), the buffer is empty and the nodes of
    the batches the domain received are, each once, the nodes that were
    buffered at the start, the objects of the pushes the script comes
    to ([called_all], read off the script and the starting count alone)
    and those of [late]: among them every object of a call of the
    script itself. *)
Theorem nothing_lost_at_exit (d : bool) (spin : nat) (cs late : list retire)
    (w : world) (l : list ptr) :
  buffered w l -> in_dtor_ (priv w) = false -> 0 <= rcount_ (priv w) ->
  NoDup (objs_of_all cs ++ objs_of_all late ++ l) ->
  Forall (fun o => o <> nullptr) (objs_of_all cs) ->
  rcount_ (priv w) + Z.of_nat (length (objs_of_all cs)) <= INT_MAX ->
  Forall (fun o => o <> nullptr) (objs_of_all late) ->
  exists w1 w' batches,
    run d (S spin) cs w = (Val tt, w1) /\
    (run d (S spin) cs ;;; destructor d (S spin) late) w = (Val tt, w') /\
    head_ (priv w') = nullptr /\ tail_ (priv w') = nullptr /\
    in_dtor_ (priv w') = true /\
    domain_log w' = domain_log w ++ batches /\
    Permutation (flushed batches)
      (fst (called_all false cs (rcount_ (priv w))) ++
       (if head_ (priv w1) =? nullptr then [] else objs_of_all late) ++ l) /\
    NoDup (flushed batches) /\
    Forall (fun c => obj_of c ∈ flushed batches) cs /\
    (forall x, x ∈ l -> x ∈ flushed batches).
Proof.
  intros Hb Hd Hr0 Hnd Hnn Hr Hlate.
  assert (NoDup (objs_of_all cs ++ l)) as Hnd_cs.
  { apply NoDup_app in Hnd as (H1 & Hdisj & H23).
    apply NoDup_app in H23 as (_ & _ & H3).
    apply NoDup_app. split_and!; try assumption.
    intros x Hx Hl. apply (Hdisj x Hx). apply elem_of_app. now right. }
  destruct (script_outcome d spin cs w l Hb Hr0 Hnd_cs Hnn Hr)
    as (w1 & l1 & b1 & Hrun & Hb1 & _ & Hlog1 & Hperm & _).
  rewrite Hd in Hperm.
  pose proof (called_all_sublist false cs (rcount_ (priv w))) as Hsub.
  pose proof (called_all_top false cs (rcount_ (priv w))) as Htop.
  set (called_cs := fst (called_all false cs (rcount_ (priv w)))) in *.
  pose proof (buffered_null w1 l1 Hb1) as [Hh1 Ht1].
  pose proof (priv_destructor_run d (S spin) late w1 l1 Hb1 Hlate) as Hdtor.
  assert (exists w' batches,
            destructor d (S spin) late w1 = (Val tt, w') /\
            head_ (priv w') = nullptr /\ tail_ (priv w') = nullptr /\
            in_dtor_ (priv w') = true /\
            domain_log w' = domain_log w ++ batches /\
            Permutation (flushed batches)
              (called_cs ++
               (if head_ (priv w1) =? nullptr then [] else objs_of_all late)
               ++ l)) as (w' & batches & Hrun' & Hh' & Ht' & Hd' & Hlog' & Hperm').
  { destruct l1 as [| x l1'].
    - eexists _, b1. split; [exact Hdtor |]. cbn.
      rewrite (proj2 Hh1 eq_refl), (proj2 Ht1 eq_refl).
      split_and!; try reflexivity; [exact Hlog1 |].
      cbn in Hperm. exact Hperm.
    - eexists _,
        (b1 ++
         (Build_hazptr_obj_list (head_ (priv w1)) (tail_ (priv w1))
            (rcount_ (priv w1)), x :: l1')
         :: map (fun o => (single_obj_list o, [o])) (objs_of_all late)).
      split; [exact Hdtor |].
      split_and!; try reflexivity.
      + cbn. rewrite Hlog1, <- !app_assoc. reflexivity.
      + destruct (Z.eqb_spec (head_ (priv w1)) nullptr) as [E | _];
          [now apply Hh1 in E |].
        rewrite flushed_app. unfold flushed at 2. cbn [map snd concat].
        fold (flushed (map (fun o => (single_obj_list o, [o]))
                         (objs_of_all late))).
        rewrite flushed_singles.
        rewrite app_assoc, (Permutation_app_comm (flushed b1)), Hperm.
        rewrite <- !app_assoc. apply Permutation_app_head, Permutation_app_comm. }
  exists w1, w', batches.
  split_and!; try assumption.
  - now rewrite (bind_val _ _ _ _ _ Hrun).
  - rewrite Hperm'.
    apply NoDup_app in Hnd as (H1 & Hdisj & H23).
    apply NoDup_app in H23 as (H2 & Hdisj' & H3).
    apply NoDup_app. split_and!.
    + exact (sublist_NoDup _ _ H1 Hsub).
    + intros y Hy. pose proof (elem_of_sublist _ _ y Hy Hsub) as Hy'.
      intros Hin. apply (Hdisj y Hy').
      destruct (head_ (priv w1) =? nullptr); [| exact Hin].
      apply elem_of_app. now right.
    + destruct (head_ (priv w1) =? nullptr); [exact H3 |].
      apply NoDup_app. now split_and!.
  - eapply Forall_impl; [exact Htop |].
    intros c Hc. cbn beta in Hc. rewrite Hperm'.
    apply elem_of_app. now left.
  - intros y Hy. rewrite Hperm'. apply elem_of_app. right.
    apply elem_of_app. now right.
Qed.

Lemma nothing_lost_at_exit_witness :
  exists w1 w' batches,
    run true 1 nested_script (fresh_world ∅) = (Val tt, w1) /\
    (run true 1 nested_script ;;; destructor true 1 [plain 30])
      (fresh_world ∅) = (Val tt, w') /\
    head_ (priv w') = nullptr /\ tail_ (priv w') = nullptr /\
    in_dtor_ (priv w') = true /\
    domain_log w' = batches /\
    Permutation (flushed batches)
      (map Z.of_nat (seq 1 22) ++
       (if head_ (priv w1) =? nullptr then [] else [30]) ++ []) /\
    NoDup (flushed batches) /\
    Forall (fun c => obj_of c ∈ flushed batches) nested_script /\
    (forall x, x ∈ [] -> x ∈ flushed batches).
Proof.
  refine (nothing_lost_at_exit true 0 nested_script [plain 30]
            (fresh_world ∅) [] (buffered_fresh ∅) eq_refl _ _ _ _ _).
  - cbn. lia.
  - apply (bool_decide_unpack _). vm_compute. exact I.
  - apply (bool_decide_unpack _). vm_compute. exact I.
  - vm_compute. discriminate.
  - apply (bool_decide_unpack _). vm_compute. exact I.
Defined.

End RetiredBufferMore.
